(** * Ainneve archetypes: a shallow embedding of [world/archetypes.py]

    The module builds trait tables for the three character archetypes,
    blends two of them into a dual archetype, checks the point budget of
    the primary traits and derives the secondary traits from the primary
    ones.  Dictionaries are finite maps keyed by strings, exceptions are
    values of [Exn], and the functions that work on a live trait store are
    written in a small state-and-exception monad over that store. *)

From Stdlib Require Import ZArith Ascii String List Lia.
From stdpp Require Import base option gmap strings list fin_maps.

Local Open Scope string_scope.
Local Open Scope Z_scope.

(** ** Python string methods used by the module *)

Module PyStr.

Definition islower (c : ascii) : bool :=
  let n := N_of_ascii c in ((97 <=? n) && (n <=? 122))%N.

Definition isupper (c : ascii) : bool :=
  let n := N_of_ascii c in ((65 <=? n) && (n <=? 90))%N.

Definition toupper (c : ascii) : ascii :=
  if islower c then ascii_of_N (N_of_ascii c - 32) else c.

Definition tolower (c : ascii) : ascii :=
  if isupper c then ascii_of_N (N_of_ascii c + 32) else c.

(** [str.title()]: a cased character is upper-cased when the character
    before it is not cased, and lower-cased otherwise. *)
Fixpoint title_from (previous_is_cased : bool) (s : string) : string :=
  match s with
  | EmptyString => EmptyString
  | String c rest =>
      if islower c then
        String (if previous_is_cased then c else toupper c) (title_from true rest)
      else if isupper c then
        String (if previous_is_cased then tolower c else c) (title_from true rest)
      else String c (title_from false rest)
  end.

Definition title (s : string) : string := title_from false s.

Fixpoint lower (s : string) : string :=
  match s with
  | EmptyString => EmptyString
  | String c rest => String (tolower c) (lower rest)
  end.

(** [str.capitalize()]: first character upper-cased, the rest lower-cased. *)
Definition capitalize (s : string) : string :=
  match s with
  | EmptyString => EmptyString
  | String c rest => String (toupper c) (lower rest)
  end.

Definition hyphen : ascii := "-"%char.

(** ['-' in s] *)
Fixpoint has_hyphen (s : string) : bool :=
  match s with
  | EmptyString => false
  | String c rest => if Ascii.eqb c hyphen then true else has_hyphen rest
  end.

(** [s.split('-', 1)] for a string that contains a hyphen: the text
    before the first hyphen and the text after it.  Without a hyphen the
    whole string is the first component. *)
Fixpoint split_hyphen (s : string) : string * string :=
  match s with
  | EmptyString => (EmptyString, EmptyString)
  | String c rest =>
      if Ascii.eqb c hyphen then (EmptyString, rest)
      else let '(l, r) := split_hyphen rest in (String c l, r)
  end.

(** ['-'.join((a, b))] *)
Definition join_hyphen (a b : string) : string :=
  String.append a (String hyphen b).

(** [s.replace('-', '')] *)
Fixpoint remove_hyphens (s : string) : string :=
  match s with
  | EmptyString => EmptyString
  | String c rest =>
      if Ascii.eqb c hyphen then remove_hyphens rest
      else String c (remove_hyphens rest)
  end.

End PyStr.

(** ** Exceptions *)

Inductive Exn : Type :=
| ArchetypeException (msg : string)
| KeyError (key : string)
| AttributeError (attr : string)
| TypeError
| RuntimeError.

Inductive Result (A : Type) : Type :=
| Ok (v : A)
| Raise (e : Exn).

Arguments Ok {A} v.
Arguments Raise {A} e.

(** ** Module constants *)

Definition VALID_ARCHETYPES : list string := ["Arcanist"; "Scout"; "Warrior"].

Definition PRIMARY_TRAITS : list string :=
  ["STR"; "PER"; "INT"; "DEX"; "CHA"; "VIT"; "MAG"].
Definition SECONDARY_TRAITS : list string := ["HP"; "SP"; "BM"; "WM"].
Definition SAVE_ROLLS : list string := ["FORT"; "REFL"; "WILL"].
Definition COMBAT_TRAITS : list string := ["ATKM"; "ATKR"; "ATKU"; "DEF"; "PP"].
Definition OTHER_TRAITS : list string := ["LV"; "XP"; "ENC"; "MV"; "ACT"].

Definition ALL_TRAITS : list string :=
  PRIMARY_TRAITS ++ SECONDARY_TRAITS ++ SAVE_ROLLS ++ COMBAT_TRAITS ++ OTHER_TRAITS.

Definition TOTAL_PRIMARY_POINTS : Z := 30.

(** ** Trait data *)

(** The ['type'] entry of a trait dictionary. *)
Inductive TraitType : Type := trait | gauge | counter.

(** Values found in a trait's bag of extra attributes. *)
Inductive ExtraVal : Type :=
| ENum (z : Z)
| EBounds (bounds : list (Z + string)).

(** One trait: the dictionary [{'type': .., 'base': .., 'mod': .., 'min': ..,
    'max': .., 'name': .., 'extra': ..}].  ['min'] and ['max'] are optional
    keys; a dictionary without ['extra'] has an empty bag.  Attributes
    assigned to a live trait that are not one of the fixed keys
    ([carry_factor] and the like) land in the bag. *)
Record Trait : Type := mkTrait {
  t_type : TraitType;
  t_base : Z;
  t_mod : Z;
  t_min : option Z;
  t_max : option Z;
  t_name : string;
  t_extra : gmap string ExtraVal
}.

Definition set_base (v : Z) (t : Trait) : Trait :=
  mkTrait (t_type t) v (t_mod t) (t_min t) (t_max t) (t_name t) (t_extra t).

Definition set_mod (v : Z) (t : Trait) : Trait :=
  mkTrait (t_type t) (t_base t) v (t_min t) (t_max t) (t_name t) (t_extra t).

Definition set_max (v : Z) (t : Trait) : Trait :=
  mkTrait (t_type t) (t_base t) (t_mod t) (t_min t) (Some v) (t_name t) (t_extra t).

Definition set_extra (attr : string) (v : ExtraVal) (t : Trait) : Trait :=
  mkTrait (t_type t) (t_base t) (t_mod t) (t_min t) (t_max t) (t_name t)
          (<[attr := v]> (t_extra t)).

(** Modelled from the spec: the [Trait] class of [world.traits], whose
    [actual] property the derivation reads, is not among the sources.  The
    actual value is [base + modifier], clamped into [[min, max]] when both
    bounds are defined; only gauges and counters carry bounds. *)
Definition actual (t : Trait) : Z :=
  let v := t_base t + t_mod t in
  match t_type t, t_min t, t_max t with
  | trait, _, _ => v
  | _, Some lo, Some hi => Z.max lo (Z.min v hi)
  | _, _, _ => v
  end.

Abbreviation TraitTable := (gmap string Trait).

(** ** Archetype classes *)

Record Archetype : Type := mkArchetype {
  name : option string;
  traits : TraitTable;
  health_roll : option string
}.

Definition plain (ty : TraitType) (b : Z) (label : string) : Trait :=
  mkTrait ty b 0 None None label ∅.

(** The literal of [Archetype.__init__]. *)
Definition default_traits : TraitTable :=
  list_to_map [
    ("STR", plain trait 1 "Strength");
    ("PER", plain trait 1 "Perception");
    ("INT", plain trait 1 "Intelligence");
    ("DEX", plain trait 1 "Dexterity");
    ("CHA", plain trait 1 "Charisma");
    ("VIT", plain trait 1 "Vitality");
    ("MAG", plain trait 0 "Magic");
    ("BM", mkTrait gauge 0 0 (Some 0) (Some 0) "Black Mana" ∅);
    ("WM", mkTrait gauge 0 0 (Some 0) (Some 0) "White Mana" ∅);
    ("HP", plain gauge 0 "Health");
    ("SP", plain gauge 0 "Stamina");
    ("FORT", plain trait 0 "Fortitude Save");
    ("REFL", plain trait 0 "Reflex Save");
    ("WILL", plain trait 0 "Will Save");
    ("ATKM", plain trait 0 "Melee Attack");
    ("ATKR", plain trait 0 "Ranged Attack");
    ("ATKU", plain trait 0 "Unarmed Attack");
    ("DEF", plain trait 0 "Defense");
    ("ACT", mkTrait counter 0 0 (Some 0) None "Action Points" ∅);
    ("PP", mkTrait counter 0 0 (Some 0) None "Power Points" ∅);
    ("ENC", mkTrait counter 0 0 (Some 0) None "Carry Weight" ∅);
    ("MV", plain trait 6 "Movement Points");
    ("LV", plain trait 0 "Level");
    ("XP", mkTrait trait 0 0 None None "Experience"
             {[ "level_boundaries" :=
                  EBounds [inl 500; inl 2000; inl 4500; inr "unlimited"] ]})
  ].

(** [Archetype()] *)
Definition new_Archetype : Archetype := mkArchetype None default_traits None.

(** [self.traits[key]['base'] = v] and [self.traits[key]['mod'] = v] in a
    constructor; every key written there is a key of the literal above. *)
Definition override_base (key : string) (v : Z) (a : Archetype) : Archetype :=
  mkArchetype (name a) (alter (set_base v) key (traits a)) (health_roll a).

Definition override_mod (key : string) (v : Z) (a : Archetype) : Archetype :=
  mkArchetype (name a) (alter (set_mod v) key (traits a)) (health_roll a).

Definition named (n roll : string) (a : Archetype) : Archetype :=
  mkArchetype (Some n) (traits a) (Some roll).

(** [Arcanist()] *)
Definition new_Arcanist : Archetype :=
  named "Arcanist" "1d6-1"
    (override_base "MV" 7
    (override_mod "SP" (-2)
    (override_base "MAG" 6
    (override_base "CHA" 4
    (override_base "INT" 6
    (override_base "PER" 4 new_Archetype)))))).

(** [Scout()] *)
Definition new_Scout : Archetype :=
  named "Scout" "1d6"
    (override_base "DEX" 4
    (override_base "INT" 6
    (override_base "PER" 6
    (override_base "STR" 4 new_Archetype)))).

(** [Warrior()] *)
Definition new_Warrior : Archetype :=
  named "Warrior" "1d6+1"
    (override_base "MV" 5
    (override_base "PP" 2
    (override_base "VIT" 6
    (override_base "CHA" 4
    (override_base "DEX" 4
    (override_base "STR" 6 new_Archetype)))))).

(** ** Exceptions as results *)

Definition rbind {A B : Type} (r : Result A) (k : A -> Result B) : Result B :=
  match r with
  | Ok v => k v
  | Raise e => Raise e
  end.

Declare Scope result_scope.
Delimit Scope result_scope with result.
Notation "x <- r ;; k" := (rbind r (fun x => k))
  (at level 100, r at next level, right associativity) : result_scope.

(** ** The dual-archetype merge *)

(** The literal [names] of [_make_dual], keyed by frozensets. *)
Definition names : gmap (gset string) string :=
  list_to_map [
    (({[ "Warrior"; "Scout" ]} : gset string), "Warrior-Scout");
    (({[ "Warrior"; "Arcanist" ]} : gset string), "Warrior-Arcanist");
    (({[ "Scout"; "Arcanist" ]} : gset string), "Arcanist-Scout")
  ].

(** ['-' in x] for an attribute that is a string or [None]. *)
Definition hyphen_in (x : option string) : Result bool :=
  match x with
  | Some s => Ok (PyStr.has_hyphen s)
  | None => Raise TypeError
  end.

(** [a.traits.get(key, trait)] *)
Definition get_or (a : Archetype) (key : string) (trait : Trait) : Trait :=
  default trait (traits a !! key).

(** The body of the loop of [_make_dual] for one item of [dual.traits]:
    ['base'] is written first, then ['mod']. *)
Definition merge_trait (a b : Archetype) (key : string) (trait : Trait) : Trait :=
  let trait1 :=
    set_base ((t_base (get_or a key trait) + t_base (get_or b key trait)) / 2) trait in
  set_mod ((t_mod (get_or a key trait1) + t_mod (get_or b key trait1)) / 2) trait1.

Section Loader.

(** [world.rulebook.roll_max] is imported from outside the module; it is
    the key function handed to [min]. *)
Variable roll_max : option string -> Z.

(** [min(x, y, key=roll_max)]: the first of the smallest. *)
Definition min_by_roll (x y : option string) : option string :=
  if roll_max y <? roll_max x then y else x.

(** [_make_dual(a, b)].  The last statement of the source renames the
    class of the result and has no effect on the instance returned. *)
Definition _make_dual (a b : Archetype) : Result Archetype :=
  (ha <- hyphen_in (name a) ;;
   hb <- (if ha then Ok true else hyphen_in (name b)) ;;
   if hb : bool then Raise (ArchetypeException "Cannot create Triple-Archetype")
   else if decide (name a = name b)
   then Raise (ArchetypeException "Cannot create dual of the same Archetype")
   else
     let dual := new_Archetype in
     let merged := map_imap (fun key trait => Some (merge_trait a b key trait))
                            (traits dual) in
     let roll := min_by_roll (health_roll a) (health_roll b) in
     let pair : gset string :=
       {[ default "" (name a); default "" (name b) ]} in
     match names !! pair with
     | Some n => Ok (mkArchetype (Some n) merged roll)
     | None => Raise (KeyError "frozenset")
     end)%result.

(** What [globals()] of the module binds. *)
Inductive GlobalObj : Type :=
| GArchetypeException   (* class whose constructor needs [msg] *)
| GArchetype | GArcanist | GScout | GWarrior
| GFunction             (* a function that needs arguments *)
| GData.                (* a tuple, number, string or module attribute *)

Definition module_globals : list (string * GlobalObj) :=
  [ ("__builtins__", GData); ("__doc__", GData); ("__file__", GData);
    ("__name__", GData); ("__package__", GData);
    ("roll_max", GFunction);
    ("ArchetypeException", GArchetypeException);
    ("VALID_ARCHETYPES", GData);
    ("PRIMARY_TRAITS", GData); ("SECONDARY_TRAITS", GData);
    ("SAVE_ROLLS", GData); ("COMBAT_TRAITS", GData); ("OTHER_TRAITS", GData);
    ("ALL_TRAITS", GData); ("TOTAL_PRIMARY_POINTS", GData);
    ("apply_archetype", GFunction); ("get_remaining_allocation", GFunction);
    ("validate_primary_traits", GFunction);
    ("calculate_secondary_traits", GFunction);
    ("load_archetype", GFunction); ("_make_dual", GFunction);
    ("Archetype", GArchetype); ("Arcanist", GArcanist);
    ("Scout", GScout); ("Warrior", GWarrior) ].

(** [globals().get(name, None)] *)
Definition globals_get (n : string) : option GlobalObj :=
  (list_to_map module_globals : gmap string GlobalObj) !! n.

(** Calling the object found with no argument. *)
Definition call0 (o : option GlobalObj) : Result Archetype :=
  match o with
  | Some GArchetype => Ok new_Archetype
  | Some GArcanist => Ok new_Arcanist
  | Some GScout => Ok new_Scout
  | Some GWarrior => Ok new_Warrior
  | Some GArchetypeException | Some GFunction | Some GData | None =>
      Raise TypeError
  end.

(** [load_archetype(name)]; [depth] bounds the nesting of the recursive
    calls. *)
Fixpoint load_archetype_rec (depth : nat) (n : string) : Result Archetype :=
  match depth with
  | O => Raise RuntimeError
  | S depth' =>
      let n := PyStr.title n in
      if PyStr.has_hyphen n then
        let parts := PyStr.split_hyphen n in
        (a <- load_archetype_rec depth' (fst parts) ;;
         b <- load_archetype_rec depth' (snd parts) ;;
         _make_dual a b)%result
      else
        match call0 (globals_get n) with
        | Raise TypeError =>
            Raise (ArchetypeException "Invalid archetype specified.")
        | r => r
        end
  end.

Definition load_archetype (n : string) : Result Archetype :=
  load_archetype_rec (S (String.length n)) n.

(** ** Characters *)

(** [char.db]: the archetype name and the trait store. *)
Record Character : Type := mkCharacter {
  db_archetype : option string;
  db_traits : TraitTable
}.

(** [apply_archetype(char, name, reset)] *)
Definition apply_archetype (char : Character) (n : string) (reset : bool)
  : Result Character :=
  let n := PyStr.capitalize n in
  if negb (bool_decide (n ∈ VALID_ARCHETYPES))
  then Raise (ArchetypeException "Invalid archetype.")
  else
    (n' <- match db_archetype char with
           | Some current =>
               if negb reset then
                 if String.eqb current n
                 then Raise (ArchetypeException (String.append "Character is already a " n))
                 else Ok (PyStr.join_hyphen current n)
               else Ok n
           | None => Ok n
           end ;;
     archetype <- load_archetype n' ;;
     Ok (mkCharacter (name archetype) (traits archetype)))%result.

End Loader.

(** ** The live trait store

    [get_remaining_allocation], [validate_primary_traits] and
    [calculate_secondary_traits] receive the trait store of a character and
    read and assign attributes of its traits.  A computation takes the store
    and gives back its outcome together with the store it leaves behind, also
    when it raises. *)

Definition Traits (A : Type) : Type := TraitTable -> Result A * TraitTable.

Definition ret {A : Type} (v : A) : Traits A := fun s => (Ok v, s).

Definition bind {A B : Type} (m : Traits A) (k : A -> Traits B) : Traits B :=
  fun s => match m s with
           | (Ok v, s') => k v s'
           | (Raise e, s') => (Raise e, s')
           end.

Declare Scope traits_scope.
Delimit Scope traits_scope with traits.
Notation "x <- m ;; k" := (bind m (fun x => k))
  (at level 100, m at next level, right associativity) : traits_scope.
Notation "m ;; k" := (bind m (fun _ => k))
  (at level 100, right associativity) : traits_scope.

(** [traits[key].field] and [traits.KEY.field] *)
Definition read {A : Type} (key : string) (field : Trait -> A) : Traits A :=
  fun s => match s !! key with
           | Some t => (Ok (field t), s)
           | None => (Raise (KeyError key), s)
           end.

(** [traits.KEY.field = v], with [upd] the assignment to the field *)
Definition write (key : string) (upd : Trait -> Trait) : Traits unit :=
  fun s => match s !! key with
           | Some t => (Ok tt, <[key := upd t]> s)
           | None => (Raise (KeyError key), s)
           end.

(** [traits.KEY.attr] for an attribute kept in the bag, read as a number *)
Definition read_num (key attr : string) : Traits Z :=
  fun s => match s !! key with
           | Some t => match t_extra t !! attr with
                       | Some (ENum z) => (Ok z, s)
                       | Some (EBounds _) => (Raise TypeError, s)
                       | None => (Raise (AttributeError attr), s)
                       end
           | None => (Raise (KeyError key), s)
           end.

(** [sum(traits[t].base for t in keys)], starting from [acc] *)
Fixpoint sum_bases (acc : Z) (keys : list string) : Traits Z :=
  match keys with
  | [] => ret acc
  | t :: rest => (b <- read t t_base ;; sum_bases (acc + b) rest)%traits
  end.

(** [get_remaining_allocation(traits)] *)
Definition get_remaining_allocation : Traits Z :=
  (allocated <- sum_bases 0 PRIMARY_TRAITS ;;
   ret (TOTAL_PRIMARY_POINTS - allocated))%traits.

(** [validate_primary_traits(traits)] *)
Definition validate_primary_traits : Traits (bool * option string) :=
  (total <- sum_bases 0 PRIMARY_TRAITS ;;
   if total >? TOTAL_PRIMARY_POINTS then
     ret (false, Some "Too many trait points allocated.")
   else if total <? TOTAL_PRIMARY_POINTS then
     ret (false, Some "Not enough trait points allocated.")
   else ret (true, None))%traits.

(** [10 if traits.MAG.base > 0 else 0] *)
Definition mana_max (mag_base : Z) : Z := if mag_base >? 0 then 10 else 0.

(** [calculate_secondary_traits(traits)] *)
Definition calculate_secondary_traits : Traits unit :=
  ((* secondary traits *)
   v <- read "VIT" actual ;; write "HP" (set_base v) ;;
   v <- read "VIT" actual ;; write "SP" (set_base v) ;;
   (* save rolls *)
   v <- read "VIT" actual ;; write "FORT" (set_base v) ;;
   v <- read "DEX" actual ;; write "REFL" (set_base v) ;;
   v <- read "INT" actual ;; write "WILL" (set_base v) ;;
   (* combat *)
   v <- read "STR" actual ;; write "ATKM" (set_base v) ;;
   v <- read "PER" actual ;; write "ATKR" (set_base v) ;;
   v <- read "DEX" actual ;; write "ATKU" (set_base v) ;;
   v <- read "DEX" actual ;; write "DEF" (set_base v) ;;
   (* mana *)
   m <- read "MAG" t_base ;; write "BM" (set_max (mana_max m)) ;;
   m <- read "MAG" t_base ;; write "WM" (set_max (mana_max m)) ;;
   (* misc *)
   write "STR" (set_extra "carry_factor" (ENum 10)) ;;
   write "STR" (set_extra "lift_factor" (ENum 20)) ;;
   write "STR" (set_extra "push_factor" (ENum 40)) ;;
   f <- read_num "STR" "lift_factor" ;;
   v <- read "STR" actual ;;
   write "ENC" (set_max (f * v)))%traits.

(** [traits.KEY.base += n] *)
Definition add_base (key : string) (n : Z) : Traits unit :=
  (b <- read key t_base ;; write key (set_base (b + n)))%traits.

(** The allocation made in the set-up of the character sheet test, after
    [apply_archetype(char, 'warrior')]. *)
Definition sheet_allocation : Traits unit :=
  (add_base "STR" 3 ;; add_base "PER" 1 ;; add_base "DEX" 1 ;;
   add_base "VIT" 3)%traits.

Definition sheet_store : TraitTable := snd (sheet_allocation (traits new_Warrior)).

(** ** Vocabulary of the properties *)

(** Two tables agree outside a list of keys. *)
Definition same_except (keys : list string) (m1 m2 : TraitTable) : Prop :=
  ∀ k, k ∉ keys → m1 !! k = m2 !! k.

(** An override of one entry of the default table. *)
Definition base_override (m : TraitTable) (k : string) (v : Z) : Prop :=
  m !! k = set_base v <$> default_traits !! k ∧ t_base <$> m !! k = Some v.

Definition mod_override (m : TraitTable) (k : string) (v : Z) : Prop :=
  m !! k = set_mod v <$> default_traits !! k ∧ t_mod <$> m !! k = Some v.

(** The table built by the loop of [_make_dual]. *)
Definition merged_traits (a b : Archetype) : TraitTable :=
  map_imap (λ key trait, Some (merge_trait a b key trait)) default_traits.

(** The names that [globals()] binds to a class that can be built without
    an argument. *)
Definition LOADABLE : list string := ["Archetype"; "Arcanist"; "Scout"; "Warrior"].

(** Every entry of [m] has the halved sums of the bases and of the modifiers
    of the entries of [ma] and [mb] under the same key. *)
Definition halved_sums (ma mb m : TraitTable) : Prop :=
  ∀ k t, m !! k = Some t →
    ∃ ta tb, ma !! k = Some ta ∧ mb !! k = Some tb
             ∧ t_base t = (t_base ta + t_base tb) / 2
             ∧ t_mod t = (t_mod ta + t_mod tb) / 2.

(** The three valid archetypes, by name. *)
Definition single (n : string) : Archetype :=
  if decide (n = "Arcanist") then new_Arcanist
  else if decide (n = "Scout") then new_Scout
  else new_Warrior.

(** A store that allocates 34 points: the Warrior with the whole budget of
    another character piled onto strength. *)
Definition overspent_store : TraitTable :=
  snd (add_base "STR" 12 (traits new_Warrior)).

(** A store that passes although STR is 23 and MAG is 2. *)
Definition lopsided_store : TraitTable :=
  snd ((add_base "STR" 17 ;; add_base "MAG" 2 ;; add_base "VIT" (-5) ;;
        add_base "DEX" (-3) ;; add_base "CHA" (-3))%traits (traits new_Warrior)).

Definition BASE_WRITTEN : list string :=
  ["HP"; "SP"; "FORT"; "REFL"; "WILL"; "ATKM"; "ATKR"; "ATKU"; "DEF"].
Definition MAX_WRITTEN : list string := ["BM"; "WM"; "ENC"].
Definition FACTORS : list string := ["carry_factor"; "lift_factor"; "push_factor"].

(** [t'] is [t] up to the fields the derivation assigns under key [k]: the
    base of the nine derived traits, the maximum of BM, WM and ENC, and the
    three factor attributes of STR. *)
Definition same_but (k : string) (t t' : Trait) : Prop :=
  t_type t' = t_type t ∧ t_mod t' = t_mod t ∧ t_min t' = t_min t
  ∧ t_name t' = t_name t
  ∧ (k ∉ BASE_WRITTEN → t_base t' = t_base t)
  ∧ (k ∉ MAX_WRITTEN → t_max t' = t_max t)
  ∧ (∀ a, k ≠ "STR" ∨ a ∉ FACTORS → t_extra t' !! a = t_extra t !! a).

(** Store [s'] has the keys of [s], each trait changed in those fields at
    most. *)
Definition frame (s s' : TraitTable) : Prop :=
  ∀ k, match s !! k, s' !! k with
       | Some t, Some t' => same_but k t t'
       | None, None => True
       | _, _ => False
       end.

Definition preserves {A : Type} (m : Traits A) : Prop :=
  ∀ s0 s, frame s0 s → frame s0 (snd (m s)).

(** The factor attributes the derivation attaches to STR. *)
Definition with_factors (t : Trait) : Trait :=
  set_extra "push_factor" (ENum 40)
    (set_extra "lift_factor" (ENum 20)
       (set_extra "carry_factor" (ENum 10) t)).

Definition DERIVATION_KEYS : list string :=
  ["VIT"; "HP"; "SP"; "FORT"; "DEX"; "REFL"; "INT"; "WILL"; "STR"; "ATKM";
   "PER"; "ATKR"; "ATKU"; "DEF"; "MAG"; "BM"; "WM"; "ENC"].

(** The store a complete run leaves, one assignment per statement. *)
Definition derived_store (s : TraitTable)
    (vit hp sp fort dex refl int will str atkm per atkr atku def mag bm wm enc
     : Trait) : TraitTable :=
  <["ENC" := set_max (20 * actual str) enc]>
  (<["STR" := with_factors str]>
  (<["STR" := set_extra "lift_factor" (ENum 20)
                (set_extra "carry_factor" (ENum 10) str)]>
  (<["STR" := set_extra "carry_factor" (ENum 10) str]>
  (<["WM" := set_max (mana_max (t_base mag)) wm]>
  (<["BM" := set_max (mana_max (t_base mag)) bm]>
  (<["DEF" := set_base (actual dex) def]>
  (<["ATKU" := set_base (actual dex) atku]>
  (<["ATKR" := set_base (actual per) atkr]>
  (<["ATKM" := set_base (actual str) atkm]>
  (<["WILL" := set_base (actual int) will]>
  (<["REFL" := set_base (actual dex) refl]>
  (<["FORT" := set_base (actual vit) fort]>
  (<["SP" := set_base (actual vit) sp]>
  (<["HP" := set_base (actual vit) hp]> s)))))))))))))).

(** The values of the literal [names] of [_make_dual]. *)
Definition DUAL_NAMES : list string :=
  ["Warrior-Scout"; "Warrior-Arcanist"; "Arcanist-Scout"].

(** * Properties *)

(** ** String helpers *)

Example title_ex : PyStr.title "wARRIOR-scout" = "Warrior-Scout".
Proof. reflexivity. Qed.

Example capitalize_ex : PyStr.capitalize "wARRIOR-scout" = "Warrior-scout".
Proof. reflexivity. Qed.

Example split_ex :
  PyStr.split_hyphen "Warrior-Scout-Arcanist" = ("Warrior", "Scout-Arcanist").
Proof. reflexivity. Qed.

(** ** Fresh archetypes *)

Ltac split_not_elem :=
  repeat match goal with
         | H : _ ∉ _ :: _ |- _ => apply not_elem_of_cons in H; destruct H
         end.

Ltac frame_alter :=
  intros ? ?; split_not_elem;
  unfold new_Warrior, new_Scout, new_Arcanist, named, override_base, override_mod;
  cbn [traits]; rewrite ?lookup_alter_ne by congruence; reflexivity.

Lemma warrior_frame :
  same_except ["STR"; "DEX"; "CHA"; "VIT"; "PP"; "MV"]
              (traits new_Warrior) default_traits.
Proof. frame_alter. Qed.

Lemma scout_frame :
  same_except ["STR"; "PER"; "INT"; "DEX"] (traits new_Scout) default_traits.
Proof. frame_alter. Qed.

Lemma arcanist_frame :
  same_except ["PER"; "INT"; "CHA"; "MAG"; "SP"; "MV"]
              (traits new_Arcanist) default_traits.
Proof. frame_alter. Qed.

Lemma load_single rm :
  load_archetype rm "Warrior" = Ok new_Warrior
  ∧ load_archetype rm "Scout" = Ok new_Scout
  ∧ load_archetype rm "Arcanist" = Ok new_Arcanist.
Proof. repeat split; vm_compute; reflexivity. Qed.

(** The defaults of the base class: primary bases 1, [MAG] base 0, every
    modifier 0, [BM] and [WM] capped at 0, [MV] base 6. *)
Lemma default_values :
  (∀ k, k ∈ ["STR"; "PER"; "INT"; "DEX"; "CHA"; "VIT"] →
        t_base <$> default_traits !! k = Some 1)
  ∧ t_base <$> default_traits !! "MAG" = Some 0
  ∧ map_Forall (λ _ t, t_mod t = 0) default_traits
  ∧ t_max <$> default_traits !! "BM" = Some (Some 0)
  ∧ t_max <$> default_traits !! "WM" = Some (Some 0)
  ∧ t_base <$> default_traits !! "MV" = Some 6
  ∧ dom default_traits = list_to_set ALL_TRAITS.
Proof.
  split; [|split; [|split; [|repeat split]]]; try (vm_compute; reflexivity).
  - intros k Hk. repeat (apply elem_of_cons in Hk as [-> | Hk]);
      try (vm_compute; reflexivity). by apply elem_of_nil in Hk.
  - apply (bool_decide_unpack _). vm_compute. exact I.
Qed.

(** C8: a freshly loaded Warrior, Scout or Arcanist carries exactly the
    overrides of its constructor (Warrior: STR 6, DEX 4, CHA 4, VIT 6, PP 2,
    MV 5, roll "1d6+1"; Scout: STR 4, PER 6, INT 6, DEX 4, MV left at 6, roll
    "1d6"; Arcanist: PER 4, INT 6, CHA 4, MAG 6, SP modifier -2, MV 7, roll
    "1d6-1"); every other entry is the one of the base class, whose primary
    bases are 1, MAG base 0, modifiers 0 and BM/WM maxima 0. *)
Theorem C8_fresh_archetypes (roll_max : option string → Z) :
  ∃ w s a,
    load_archetype roll_max "Warrior" = Ok w
    ∧ load_archetype roll_max "Scout" = Ok s
    ∧ load_archetype roll_max "Arcanist" = Ok a
    ∧ (name w = Some "Warrior" ∧ health_roll w = Some "1d6+1"
       ∧ base_override (traits w) "STR" 6 ∧ base_override (traits w) "DEX" 4
       ∧ base_override (traits w) "CHA" 4 ∧ base_override (traits w) "VIT" 6
       ∧ base_override (traits w) "PP" 2 ∧ base_override (traits w) "MV" 5
       ∧ same_except ["STR"; "DEX"; "CHA"; "VIT"; "PP"; "MV"]
                     (traits w) default_traits)
    ∧ (name s = Some "Scout" ∧ health_roll s = Some "1d6"
       ∧ base_override (traits s) "STR" 4 ∧ base_override (traits s) "PER" 6
       ∧ base_override (traits s) "INT" 6 ∧ base_override (traits s) "DEX" 4
       ∧ t_base <$> traits s !! "MV" = Some 6
       ∧ same_except ["STR"; "PER"; "INT"; "DEX"] (traits s) default_traits)
    ∧ (name a = Some "Arcanist" ∧ health_roll a = Some "1d6-1"
       ∧ base_override (traits a) "PER" 4 ∧ base_override (traits a) "INT" 6
       ∧ base_override (traits a) "CHA" 4 ∧ base_override (traits a) "MAG" 6
       ∧ mod_override (traits a) "SP" (-2) ∧ base_override (traits a) "MV" 7
       ∧ same_except ["PER"; "INT"; "CHA"; "MAG"; "SP"; "MV"]
                     (traits a) default_traits)
    ∧ ((∀ k, k ∈ ["STR"; "PER"; "INT"; "DEX"; "CHA"; "VIT"] →
             t_base <$> default_traits !! k = Some 1)
       ∧ t_base <$> default_traits !! "MAG" = Some 0
       ∧ map_Forall (λ _ t, t_mod t = 0) default_traits
       ∧ t_max <$> default_traits !! "BM" = Some (Some 0)
       ∧ t_max <$> default_traits !! "WM" = Some (Some 0)
       ∧ t_base <$> default_traits !! "MV" = Some 6
       ∧ dom default_traits = list_to_set ALL_TRAITS).
Proof.
  destruct (load_single roll_max) as (Hw & Hs & Ha).
  exists new_Warrior, new_Scout, new_Arcanist.
  split; [exact Hw|]. split; [exact Hs|]. split; [exact Ha|].
  split; [|split; [|split]].
  - repeat split; try (vm_compute; reflexivity). apply warrior_frame.
  - repeat split; try (vm_compute; reflexivity). apply scout_frame.
  - repeat split; try (vm_compute; reflexivity). apply arcanist_frame.
  - apply default_values.
Qed.

(** ** The merge *)

Lemma merge_trait_lookup a b k t0 ta tb :
  traits a !! k = Some ta → traits b !! k = Some tb →
  t_base (merge_trait a b k t0) = (t_base ta + t_base tb) / 2
  ∧ t_mod (merge_trait a b k t0) = (t_mod ta + t_mod tb) / 2
  ∧ t_type (merge_trait a b k t0) = t_type t0
  ∧ t_min (merge_trait a b k t0) = t_min t0
  ∧ t_max (merge_trait a b k t0) = t_max t0
  ∧ t_name (merge_trait a b k t0) = t_name t0
  ∧ t_extra (merge_trait a b k t0) = t_extra t0.
Proof.
  intros Ha Hb. unfold merge_trait, get_or. rewrite Ha, Hb. cbn. tauto.
Qed.

Lemma merge_trait_comm a b k t0 : merge_trait a b k t0 = merge_trait b a k t0.
Proof.
  unfold merge_trait.
  rewrite (Z.add_comm (t_base (get_or a k t0))).
  set (t1 := set_base _ t0).
  by rewrite (Z.add_comm (t_mod (get_or a k t1))).
Qed.

Lemma merged_traits_comm a b : merged_traits a b = merged_traits b a.
Proof.
  apply map_eq. intros k. unfold merged_traits. rewrite !map_lookup_imap.
  destruct (default_traits !! k) as [t0|]; cbn; [|done].
  by rewrite merge_trait_comm.
Qed.

Lemma merged_traits_lookup a b k :
  merged_traits a b !! k = merge_trait a b k <$> default_traits !! k.
Proof.
  unfold merged_traits. rewrite map_lookup_imap.
  by destruct (default_traits !! k).
Qed.

(** When both names are strings without a hyphen, differ and are a pair of
    the table, the merge succeeds with the table's name. *)
Lemma make_dual_ok rm a b na nb n :
  name a = Some na → name b = Some nb →
  PyStr.has_hyphen na = false → PyStr.has_hyphen nb = false →
  na ≠ nb →
  names !! ({[ na; nb ]} : gset string) = Some n →
  _make_dual rm a b
  = Ok (mkArchetype (Some n) (merged_traits a b)
                    (min_by_roll rm (health_roll a) (health_roll b))).
Proof.
  intros Ha Hb Hna Hnb Hne Hn. unfold _make_dual.
  rewrite Ha, Hb. cbn -[names default_traits]. rewrite Hna, Hnb.
  cbn -[names default_traits].
  destruct (decide (Some na = Some nb)) as [Heq|_]; [congruence|].
  by rewrite Hn.
Qed.


(** ** Loading by name *)

Lemma title_from_length b s : String.length (PyStr.title_from b s) = String.length s.
Proof.
  revert b. induction s as [|c s IH]; intros b; cbn; [done|].
  destruct (PyStr.islower c); [|destruct (PyStr.isupper c)]; cbn; by rewrite IH.
Qed.

Lemma split_hyphen_length s :
  PyStr.has_hyphen s = true →
  (String.length (fst (PyStr.split_hyphen s)) < String.length s
   ∧ String.length (snd (PyStr.split_hyphen s)) < String.length s)%nat.
Proof.
  induction s as [|c s IH]; cbn; [done|].
  destruct (Ascii.eqb c PyStr.hyphen); cbn; [lia|].
  intros Hs. specialize (IH Hs).
  destruct (PyStr.split_hyphen s) as [l r]. cbn in *. lia.
Qed.

Lemma load_archetype_rec_S rm d n :
  load_archetype_rec rm (S d) n =
  if PyStr.has_hyphen (PyStr.title n) then
    (a <- load_archetype_rec rm d (fst (PyStr.split_hyphen (PyStr.title n))) ;;
     b <- load_archetype_rec rm d (snd (PyStr.split_hyphen (PyStr.title n))) ;;
     _make_dual rm a b)%result
  else
    match call0 (globals_get (PyStr.title n)) with
    | Raise TypeError => Raise (ArchetypeException "Invalid archetype specified.")
    | r => r
    end.
Proof. reflexivity. Qed.

Lemma title_length s : String.length (PyStr.title s) = String.length s.
Proof. apply title_from_length. Qed.

(** The recursion of [load_archetype] ends: any two depths above the length
    of the name give the same result. *)
Lemma load_archetype_rec_enough rm d1 d2 n :
  (String.length n < d1)%nat → (String.length n < d2)%nat →
  load_archetype_rec rm d1 n = load_archetype_rec rm d2 n.
Proof.
  revert d2 n. induction d1 as [|d1 IH]; intros d2 n H1 H2; [lia|].
  destruct d2 as [|d2]; [lia|]. rewrite !load_archetype_rec_S.
  destruct (PyStr.has_hyphen (PyStr.title n)) eqn:Hh; [|reflexivity].
  apply split_hyphen_length in Hh as [Hl Hr]. rewrite title_length in Hl, Hr.
  rewrite (IH d2 (fst _)) by lia.
  rewrite (IH d2 (snd _)) by lia. reflexivity.
Qed.

Lemma load_archetype_unfold rm n :
  load_archetype rm n =
  if PyStr.has_hyphen (PyStr.title n) then
    (a <- load_archetype rm (fst (PyStr.split_hyphen (PyStr.title n))) ;;
     b <- load_archetype rm (snd (PyStr.split_hyphen (PyStr.title n))) ;;
     _make_dual rm a b)%result
  else
    match call0 (globals_get (PyStr.title n)) with
    | Raise TypeError => Raise (ArchetypeException "Invalid archetype specified.")
    | r => r
    end.
Proof.
  unfold load_archetype. rewrite load_archetype_rec_S.
  destruct (PyStr.has_hyphen (PyStr.title n)) eqn:Hh; [|reflexivity].
  apply split_hyphen_length in Hh as [Hl Hr]. rewrite title_length in Hl, Hr.
  set (parts := PyStr.split_hyphen (PyStr.title n)) in *.
  rewrite (load_archetype_rec_enough rm _ (S (String.length (fst parts)))
             (fst parts)) by lia.
  rewrite (load_archetype_rec_enough rm _ (S (String.length (snd parts)))
             (snd parts)) by lia.
  reflexivity.
Qed.

Lemma make_dual_no_runtime_error rm a b : _make_dual rm a b ≠ Raise RuntimeError.
Proof.
  unfold _make_dual, hyphen_in, rbind.
  destruct (name a) as [na|]; [|discriminate].
  destruct (PyStr.has_hyphen na); [discriminate|].
  destruct (name b) as [nb|]; [|discriminate].
  destruct (PyStr.has_hyphen nb); [discriminate|].
  destruct (decide (Some na = Some nb)); [discriminate|].
  destruct (names !! _); discriminate.
Qed.

(** The depth given by [load_archetype] is never used up. *)
Lemma load_archetype_total rm n : load_archetype rm n ≠ Raise RuntimeError.
Proof.
  remember (String.length n) as len eqn:Hlen.
  revert n Hlen. induction (lt_wf len) as [len _ IH]. intros n ->.
  rewrite load_archetype_unfold.
  destruct (PyStr.has_hyphen (PyStr.title n)) eqn:Hh.
  - apply split_hyphen_length in Hh as [Hl Hr]. rewrite title_length in Hl, Hr.
    set (parts := PyStr.split_hyphen (PyStr.title n)) in *.
    pose proof (IH _ Hl (fst parts) eq_refl) as IHl.
    pose proof (IH _ Hr (snd parts) eq_refl) as IHr.
    unfold rbind.
    destruct (load_archetype rm (fst parts)) as [a|e]; [|exact IHl].
    destruct (load_archetype rm (snd parts)) as [b|e]; [|exact IHr].
    apply make_dual_no_runtime_error.
  - unfold call0. destruct (globals_get (PyStr.title n)) as [[]|]; discriminate.
Qed.

(** [title] changes letters only: hyphens stay where they are. *)
Lemma title_char_hyphen (c : ascii) :
  (PyStr.islower c = true ∨ PyStr.isupper c = true → Ascii.eqb c PyStr.hyphen = false)
  ∧ Ascii.eqb (PyStr.toupper c) PyStr.hyphen = Ascii.eqb c PyStr.hyphen
  ∧ Ascii.eqb (PyStr.tolower c) PyStr.hyphen = Ascii.eqb c PyStr.hyphen.
Proof.
  destruct c as [[] [] [] [] [] [] [] []]; vm_compute;
    (split; [intros [?|?]; congruence | split; reflexivity]).
Qed.

Lemma title_from_has_hyphen b s :
  PyStr.has_hyphen (PyStr.title_from b s) = PyStr.has_hyphen s.
Proof.
  revert b. induction s as [|c s IH]; intros b; [reflexivity|].
  destruct (title_char_hyphen c) as (Hcased & Hup & Hlow).
  cbn [PyStr.title_from PyStr.has_hyphen].
  destruct (PyStr.islower c) eqn:Hl; [|destruct (PyStr.isupper c) eqn:Hu].
  - destruct b; cbn [PyStr.has_hyphen]; rewrite ?Hup, IH; reflexivity.
  - destruct b; cbn [PyStr.has_hyphen]; rewrite ?Hlow, IH; reflexivity.
  - cbn [PyStr.has_hyphen]. rewrite IH. reflexivity.
Qed.

Lemma title_has_hyphen s : PyStr.has_hyphen (PyStr.title s) = PyStr.has_hyphen s.
Proof. apply title_from_has_hyphen. Qed.

Lemma call0_globals n :
  call0 (globals_get n) =
  if decide (n = "Archetype") then Ok new_Archetype
  else if decide (n = "Arcanist") then Ok new_Arcanist
  else if decide (n = "Scout") then Ok new_Scout
  else if decide (n = "Warrior") then Ok new_Warrior
  else Raise TypeError.
Proof.
  unfold globals_get.
  destruct (list_to_map module_globals !! n) as [o|] eqn:E.
  - apply elem_of_list_to_map_2 in E. unfold module_globals in E.
    repeat (apply elem_of_cons in E as [E|E]; [injection E as -> ->; reflexivity|]).
    by apply elem_of_nil in E.
  - apply not_elem_of_list_to_map_2 in E.
    repeat case_decide; try reflexivity; subst n; exfalso; apply E;
      vm_compute; repeat (first [apply list_elem_of_here | apply list_elem_of_further]).
Qed.

(** For a name without hyphen, [load_archetype] builds the class that the
    title-cased name is bound to among the globals of the module, and
    raises the invalid-archetype error for every other name. *)
Lemma load_archetype_single rm n :
  PyStr.has_hyphen n = false →
  load_archetype rm n =
  if decide (PyStr.title n = "Archetype") then Ok new_Archetype
  else if decide (PyStr.title n = "Arcanist") then Ok new_Arcanist
  else if decide (PyStr.title n = "Scout") then Ok new_Scout
  else if decide (PyStr.title n = "Warrior") then Ok new_Warrior
  else Raise (ArchetypeException "Invalid archetype specified.").
Proof.
  intros Hn. rewrite load_archetype_unfold, title_has_hyphen, Hn, call0_globals.
  repeat case_decide; reflexivity.
Qed.

(** C6: the claim that every name outside Warrior, Scout and Arcanist is
    rejected fails on the code at the name of the base class: "archetype"
    has no hyphen, its title-cased form is not a valid archetype, and
    [load_archetype] returns a plain [Archetype] whose name is [None]
    instead of raising. *)
Theorem C6_base_class_is_loaded (roll_max : option string → Z) :
  PyStr.has_hyphen "archetype" = false
  ∧ (PyStr.title "archetype" ∉ VALID_ARCHETYPES)
  ∧ load_archetype roll_max "archetype" = Ok new_Archetype
  ∧ name new_Archetype = None
  ∧ (∀ e, load_archetype roll_max "archetype" ≠ Raise e).
Proof.
  assert (Hload : load_archetype roll_max "archetype" = Ok new_Archetype).
  { rewrite load_archetype_single by reflexivity. reflexivity. }
  split; [reflexivity|]. split.
  - intros Hin. unfold VALID_ARCHETYPES in Hin.
    repeat (apply elem_of_cons in Hin as [Hin|Hin]; [discriminate Hin|]).
    by apply elem_of_nil in Hin.
  - split; [exact Hload|]. split; [reflexivity|].
    intros e. rewrite Hload. discriminate.
Qed.

(** Outside the base class the loader does what is expected of it: the three
    valid names load in any letter case and every other name without hyphen
    is rejected. *)
Lemma load_archetype_other_names rm n :
  PyStr.has_hyphen n = false →
  (PyStr.title n = "Warrior" → load_archetype rm n = Ok new_Warrior)
  ∧ (PyStr.title n = "Scout" → load_archetype rm n = Ok new_Scout)
  ∧ (PyStr.title n = "Arcanist" → load_archetype rm n = Ok new_Arcanist)
  ∧ (PyStr.title n ∉ LOADABLE →
     load_archetype rm n = Raise (ArchetypeException "Invalid archetype specified.")).
Proof.
  intros Hn. rewrite (load_archetype_single rm n Hn).
  repeat split.
  - intros ->. reflexivity.
  - intros ->. reflexivity.
  - intros ->. reflexivity.
  - intros Hnot. unfold LOADABLE in Hnot.
    repeat (apply not_elem_of_cons in Hnot as [? Hnot]).
    repeat case_decide; congruence.
Qed.

(** ** Dual archetypes *)

Lemma valid_cases n :
  n ∈ VALID_ARCHETYPES → n = "Arcanist" ∨ n = "Scout" ∨ n = "Warrior".
Proof.
  unfold VALID_ARCHETYPES. intros H.
  repeat (apply elem_of_cons in H as [H|H]; [tauto|]). by apply elem_of_nil in H.
Qed.

Lemma load_valid rm n :
  n ∈ VALID_ARCHETYPES →
  load_archetype rm n = Ok (single n) ∧ name (single n) = Some n
  ∧ PyStr.has_hyphen n = false
  ∧ ∀ k, is_Some (default_traits !! k) → is_Some (traits (single n) !! k).
Proof.
  intros Hn. apply valid_cases in Hn as [-> | [-> | ->]];
    (split; [rewrite load_archetype_single by reflexivity; reflexivity|]);
    (split; [reflexivity|]); (split; [reflexivity|]); intros k Hk;
    unfold single, new_Arcanist, new_Scout, new_Warrior, named,
      override_base, override_mod;
    cbn [decide traits]; repeat case_decide; try discriminate;
    cbn [traits]; by rewrite !lookup_alter_is_Some.
Qed.

Lemma title_join_valid A B :
  A ∈ VALID_ARCHETYPES → B ∈ VALID_ARCHETYPES →
  PyStr.has_hyphen (PyStr.title (PyStr.join_hyphen A B)) = true
  ∧ PyStr.split_hyphen (PyStr.title (PyStr.join_hyphen A B)) = (A, B).
Proof.
  intros HA HB.
  apply valid_cases in HA as [-> | [-> | ->]]; apply valid_cases in HB as [-> | [-> | ->]];
    split; reflexivity.
Qed.

(** Loading "A-B" for two valid names is the merge of the two archetypes. *)
Lemma load_dual rm A B :
  A ∈ VALID_ARCHETYPES → B ∈ VALID_ARCHETYPES →
  load_archetype rm (PyStr.join_hyphen A B) = _make_dual rm (single A) (single B).
Proof.
  intros HA HB. rewrite load_archetype_unfold.
  destruct (title_join_valid A B HA HB) as [-> ->]. cbn [fst snd].
  destruct (load_valid rm A HA) as [-> _].
  destruct (load_valid rm B HB) as [-> _]. reflexivity.
Qed.

Lemma names_lookup A B :
  A ∈ VALID_ARCHETYPES → B ∈ VALID_ARCHETYPES → A ≠ B →
  ∃ n, names !! ({[ A; B ]} : gset string) = Some n
       ∧ names !! ({[ B; A ]} : gset string) = Some n
       ∧ (A = "Warrior" ∧ B = "Scout" ∨ A = "Scout" ∧ B = "Warrior" →
          n = "Warrior-Scout")
       ∧ (A = "Warrior" ∧ B = "Arcanist" ∨ A = "Arcanist" ∧ B = "Warrior" →
          n = "Warrior-Arcanist")
       ∧ (A = "Scout" ∧ B = "Arcanist" ∨ A = "Arcanist" ∧ B = "Scout" →
          n = "Arcanist-Scout").
Proof.
  intros HA HB Hne.
  apply valid_cases in HA as [-> | [-> | ->]]; apply valid_cases in HB as [-> | [-> | ->]];
    try congruence;
    eexists; (split; [vm_compute; reflexivity|]); (split; [vm_compute; reflexivity|]);
    repeat split; intros [[? ?]|[? ?]]; congruence.
Qed.

Lemma merged_traits_halved a b :
  (∀ k, is_Some (default_traits !! k) → is_Some (traits a !! k)) →
  (∀ k, is_Some (default_traits !! k) → is_Some (traits b !! k)) →
  halved_sums (traits a) (traits b) (merged_traits a b).
Proof.
  intros Ha Hb k t. rewrite merged_traits_lookup.
  destruct (default_traits !! k) as [t0|] eqn:Hk; [|discriminate].
  intros [= <-].
  destruct (Ha k) as [ta Hta]; [by rewrite Hk|].
  destruct (Hb k) as [tb Htb]; [by rewrite Hk|].
  exists ta, tb. split; [done|]. split; [done|].
  destruct (merge_trait_lookup a b k t0 ta tb Hta Htb) as (H1 & H2 & _).
  by split.
Qed.

Lemma merged_traits_dom a b : dom (merged_traits a b) = list_to_set ALL_TRAITS.
Proof.
  transitivity (dom default_traits); [|apply default_values].
  apply set_eq. intros k. rewrite !elem_of_dom, merged_traits_lookup.
  by rewrite fmap_is_Some.
Qed.

(** C1: for two distinct valid archetypes A and B, "A-B" and "B-A" load to
    archetypes with the same trait table, in which every base and every
    modifier is the floor of half the sum of the two single archetypes'
    values, and with the same name, the canonical one of the pair. *)
Theorem C1_dual_archetypes (roll_max : option string → Z) (A B : string) :
  A ∈ VALID_ARCHETYPES → B ∈ VALID_ARCHETYPES → A ≠ B →
  ∃ a b d d',
    load_archetype roll_max A = Ok a
    ∧ load_archetype roll_max B = Ok b
    ∧ load_archetype roll_max (PyStr.join_hyphen A B) = Ok d
    ∧ load_archetype roll_max (PyStr.join_hyphen B A) = Ok d'
    ∧ traits d = traits d'
    ∧ dom (traits d) = list_to_set ALL_TRAITS
    ∧ halved_sums (traits a) (traits b) (traits d)
    ∧ name d = name d'
    ∧ (A = "Warrior" ∧ B = "Scout" ∨ A = "Scout" ∧ B = "Warrior" →
       name d = Some "Warrior-Scout")
    ∧ (A = "Warrior" ∧ B = "Arcanist" ∨ A = "Arcanist" ∧ B = "Warrior" →
       name d = Some "Warrior-Arcanist")
    ∧ (A = "Scout" ∧ B = "Arcanist" ∨ A = "Arcanist" ∧ B = "Scout" →
       name d = Some "Arcanist-Scout").
Proof.
  intros HA HB Hne.
  destruct (load_valid roll_max A HA) as (HlA & HnA & HhA & HkA).
  destruct (load_valid roll_max B HB) as (HlB & HnB & HhB & HkB).
  destruct (names_lookup A B HA HB Hne) as (n & Hn & Hn' & Hws & Hwa & Hsa).
  exists (single A), (single B).
  eexists. eexists.
  split; [exact HlA|]. split; [exact HlB|].
  split.
  { rewrite load_dual by done.
    apply (make_dual_ok roll_max _ _ A B n); done. }
  split.
  { rewrite load_dual by done.
    apply (make_dual_ok roll_max _ _ B A n); done. }
  cbn [traits name].
  split; [apply merged_traits_comm|].
  split; [apply merged_traits_dom|].
  split; [by apply merged_traits_halved|].
  split; [reflexivity|].
  repeat split; intros H; f_equal; auto.
Qed.

Lemma C1_dual_archetypes_witness :
  ∃ a b d d',
    load_archetype (λ _, 0) "Scout" = Ok a
    ∧ load_archetype (λ _, 0) "Arcanist" = Ok b
    ∧ load_archetype (λ _, 0) (PyStr.join_hyphen "Scout" "Arcanist") = Ok d
    ∧ load_archetype (λ _, 0) (PyStr.join_hyphen "Arcanist" "Scout") = Ok d'
    ∧ traits d = traits d'
    ∧ dom (traits d) = list_to_set ALL_TRAITS
    ∧ halved_sums (traits a) (traits b) (traits d)
    ∧ name d = name d'
    ∧ ("Scout" = "Warrior" ∧ "Arcanist" = "Scout"
       ∨ "Scout" = "Scout" ∧ "Arcanist" = "Warrior" →
       name d = Some "Warrior-Scout")
    ∧ ("Scout" = "Warrior" ∧ "Arcanist" = "Arcanist"
       ∨ "Scout" = "Arcanist" ∧ "Arcanist" = "Warrior" →
       name d = Some "Warrior-Arcanist")
    ∧ ("Scout" = "Scout" ∧ "Arcanist" = "Arcanist"
       ∨ "Scout" = "Arcanist" ∧ "Arcanist" = "Scout" →
       name d = Some "Arcanist-Scout").
Proof.
  apply (C1_dual_archetypes (λ _, 0) "Scout" "Arcanist").
  - vm_compute. apply list_elem_of_further, list_elem_of_here.
  - vm_compute. apply list_elem_of_here.
  - discriminate.
Defined.

(** The merged values of two pairs, read off the loaded tables. *)
Example warrior_scout_values rm :
  match load_archetype rm "scout-warrior" with
  | Ok d => Some (name d, (λ k, t_base <$> traits d !! k)
                            <$> ["STR"; "PER"; "VIT"; "PP"; "MV"])
  | Raise _ => None
  end
  = Some (Some "Warrior-Scout", [Some 5; Some 3; Some 3; Some 1; Some 5]).
Proof. vm_compute. reflexivity. Qed.

Example arcanist_scout_values rm :
  match load_archetype rm "scout-arcanist" with
  | Ok d => Some (name d, t_base <$> traits d !! "MAG",
                  t_mod <$> traits d !! "SP", t_base <$> traits d !! "MV")
  | Raise _ => None
  end
  = Some (Some "Arcanist-Scout", Some 3, Some (-1), Some 6).
Proof. vm_compute. reflexivity. Qed.

(** ** Applying an archetype to a character *)

(** C3: on a character without archetype, [apply_archetype] with "warrior"
    records the name "Warrior" and installs the Warrior table in place of
    whatever store the character had; a second call with "Warrior" and no
    reset raises the already-this-archetype error; a second call with
    "Scout" and no reset records "Warrior-Scout" and installs the merged
    table. *)
Theorem C3_apply_archetype (roll_max : option string → Z) (store0 : TraitTable) :
  ∃ char1 char2 w s d,
    apply_archetype roll_max (mkCharacter None store0) "warrior" false = Ok char1
    ∧ load_archetype roll_max "Warrior" = Ok w
    ∧ db_archetype char1 = Some "Warrior"
    ∧ db_traits char1 = traits w
    ∧ apply_archetype roll_max char1 "Warrior" false
      = Raise (ArchetypeException "Character is already a Warrior")
    ∧ apply_archetype roll_max char1 "Scout" false = Ok char2
    ∧ load_archetype roll_max "Scout" = Ok s
    ∧ load_archetype roll_max "Warrior-Scout" = Ok d
    ∧ db_archetype char2 = Some "Warrior-Scout"
    ∧ db_traits char2 = traits d
    ∧ dom (traits d) = list_to_set ALL_TRAITS
    ∧ halved_sums (traits w) (traits s) (traits d).
Proof.
  assert (HW : "Warrior" ∈ VALID_ARCHETYPES) by (apply (bool_decide_unpack _); exact I).
  assert (HS : "Scout" ∈ VALID_ARCHETYPES) by (apply (bool_decide_unpack _); exact I).
  assert (Hd : load_archetype roll_max "Warrior-Scout"
               = Ok (mkArchetype (Some "Warrior-Scout")
                       (merged_traits new_Warrior new_Scout)
                       (min_by_roll roll_max (Some "1d6+1") (Some "1d6")))).
  { change "Warrior-Scout" with (PyStr.join_hyphen "Warrior" "Scout") at 1.
    rewrite load_dual by done.
    change (single "Warrior") with new_Warrior.
    change (single "Scout") with new_Scout.
    apply (make_dual_ok roll_max new_Warrior new_Scout "Warrior" "Scout");
      done. }
  exists (mkCharacter (Some "Warrior") (traits new_Warrior)).
  exists (mkCharacter (Some "Warrior-Scout") (merged_traits new_Warrior new_Scout)).
  exists new_Warrior, new_Scout. eexists.
  split; [vm_compute; reflexivity|].
  split; [apply load_single|].
  split; [reflexivity|]. split; [reflexivity|].
  split; [vm_compute; reflexivity|].
  split.
  { unfold apply_archetype. cbn [db_archetype negb].
    change (PyStr.capitalize "Scout") with "Scout".
    rewrite (bool_decide_eq_true_2 _ HS). cbn [negb].
    change (String.eqb "Warrior" "Scout") with false. cbv iota.
    unfold rbind at 1.
    change (PyStr.join_hyphen "Warrior" "Scout") with "Warrior-Scout".
    rewrite Hd. reflexivity. }
  split; [apply load_single|].
  split; [exact Hd|].
  cbn [db_archetype db_traits traits].
  split; [reflexivity|]. split; [reflexivity|].
  split; [apply merged_traits_dom|].
  apply merged_traits_halved.
  - apply (load_valid roll_max "Warrior" HW).
  - apply (load_valid roll_max "Scout" HS).
Qed.

(** With [reset], or with a name that is no valid archetype, the call does
    what its guard says. *)
Example apply_invalid rm char :
  apply_archetype rm char "archetype" false
  = Raise (ArchetypeException "Invalid archetype.").
Proof. reflexivity. Qed.

Example apply_reset rm store0 :
  apply_archetype rm (mkCharacter (Some "Warrior") store0) "scout" true
  = Ok (mkCharacter (Some "Scout") (traits new_Scout)).
Proof. vm_compute. reflexivity. Qed.


(** Through the loader: a pair of equal names and a chain of three names. *)
Example load_self_dual rm :
  load_archetype rm "warrior-WARRIOR"
  = Raise (ArchetypeException "Cannot create dual of the same Archetype").
Proof. vm_compute. reflexivity. Qed.

Example load_triple rm :
  load_archetype rm "warrior-scout-arcanist"
  = Raise (ArchetypeException "Cannot create Triple-Archetype").
Proof. vm_compute. reflexivity. Qed.

(** ** Point budget *)

Lemma bind_read_Some {A B} key (field : Trait → A) (k : A → Traits B) s t :
  s !! key = Some t → bind (read key field) k s = k (field t) s.
Proof. intros H. unfold bind, read. by rewrite H. Qed.

Lemma bind_read_None {A B} key (field : Trait → A) (k : A → Traits B) s :
  s !! key = None → bind (read key field) k s = (Raise (KeyError key), s).
Proof. intros H. unfold bind, read. by rewrite H. Qed.

Lemma bind_write_Some {B} key upd (k : unit → Traits B) s t :
  s !! key = Some t → bind (write key upd) k s = k tt (<[key := upd t]> s).
Proof. intros H. unfold bind, write. by rewrite H. Qed.

Lemma bind_write_None {B} key upd (k : unit → Traits B) s :
  s !! key = None → bind (write key upd) k s = (Raise (KeyError key), s).
Proof. intros H. unfold bind, write. by rewrite H. Qed.

(** Summing the bases reads the store and never changes it. *)
Lemma sum_bases_store acc keys s : snd (sum_bases acc keys s) = s.
Proof.
  revert acc. induction keys as [|t keys IH]; intros acc; [reflexivity|].
  cbn [sum_bases]. destruct (s !! t) as [x|] eqn:Ht.
  - rewrite (bind_read_Some _ _ _ _ x Ht). apply IH.
  - by rewrite (bind_read_None _ _ _ _ Ht).
Qed.

Lemma sum_bases_primary s str per int dex cha vit mag :
  s !! "STR" = Some str → s !! "PER" = Some per → s !! "INT" = Some int →
  s !! "DEX" = Some dex → s !! "CHA" = Some cha → s !! "VIT" = Some vit →
  s !! "MAG" = Some mag →
  sum_bases 0 PRIMARY_TRAITS s
  = (Ok (t_base str + t_base per + t_base int + t_base dex + t_base cha
         + t_base vit + t_base mag), s).
Proof.
  intros H1 H2 H3 H4 H5 H6 H7. unfold PRIMARY_TRAITS. cbn [sum_bases].
  rewrite (bind_read_Some _ _ _ _ _ H1), (bind_read_Some _ _ _ _ _ H2),
    (bind_read_Some _ _ _ _ _ H3), (bind_read_Some _ _ _ _ _ H4),
    (bind_read_Some _ _ _ _ _ H5), (bind_read_Some _ _ _ _ _ H6),
    (bind_read_Some _ _ _ _ _ H7).
  reflexivity.
Qed.

(** C9: [get_remaining_allocation] gives 30 minus the sum of the bases of
    the seven primary traits, a negative number when more than 30 points
    are allocated, and leaves the store as it found it. *)
Theorem C9_remaining_allocation (s : TraitTable)
    (str per int dex cha vit mag : Trait) :
  s !! "STR" = Some str → s !! "PER" = Some per → s !! "INT" = Some int →
  s !! "DEX" = Some dex → s !! "CHA" = Some cha → s !! "VIT" = Some vit →
  s !! "MAG" = Some mag →
  let allocated := t_base str + t_base per + t_base int + t_base dex
                   + t_base cha + t_base vit + t_base mag in
  get_remaining_allocation s = (Ok (30 - allocated), s)
  ∧ (30 < allocated →
     ∃ r, fst (get_remaining_allocation s) = Ok r ∧ r < 0).
Proof.
  intros H1 H2 H3 H4 H5 H6 H7 allocated.
  assert (Hrun : get_remaining_allocation s = (Ok (30 - allocated), s)).
  { unfold get_remaining_allocation, bind.
    rewrite (sum_bases_primary s _ _ _ _ _ _ _ H1 H2 H3 H4 H5 H6 H7).
    reflexivity. }
  split; [exact Hrun|].
  intros Hover. exists (30 - allocated). rewrite Hrun. split; [reflexivity|lia].
Qed.

(** The store is left alone also when the call raises. *)
Lemma get_remaining_allocation_store s : snd (get_remaining_allocation s) = s.
Proof.
  unfold get_remaining_allocation, bind.
  pose proof (sum_bases_store 0 PRIMARY_TRAITS s) as H.
  destruct (sum_bases 0 PRIMARY_TRAITS s) as [[v|e] s']; cbn in *; by subst.
Qed.

Lemma C9_remaining_allocation_witness :
  get_remaining_allocation overspent_store = (Ok (-4), overspent_store)
  ∧ ∃ r, fst (get_remaining_allocation overspent_store) = Ok r ∧ r < 0.
Proof.
  destruct (C9_remaining_allocation overspent_store
              (set_base 18 (plain trait 1 "Strength"))
              (plain trait 1 "Perception") (plain trait 1 "Intelligence")
              (set_base 4 (plain trait 1 "Dexterity"))
              (set_base 4 (plain trait 1 "Charisma"))
              (set_base 6 (plain trait 1 "Vitality"))
              (plain trait 0 "Magic")
              eq_refl eq_refl eq_refl eq_refl eq_refl eq_refl eq_refl)
    as [Hrun Hneg].
  split; [exact Hrun|]. apply Hneg. reflexivity.
Defined.

(** C4: [validate_primary_traits] fails with the too-many message when the
    primary bases sum to more than 30, fails with the not-enough message when
    they sum to less, and passes with no message exactly when the sum is 30;
    no bound on a single trait is checked, so a store summing to 30 passes
    also with a base outside 1..10 and a nonzero MAG. *)
Theorem C4_validate_primary_traits (s : TraitTable)
    (str per int dex cha vit mag : Trait) :
  s !! "STR" = Some str → s !! "PER" = Some per → s !! "INT" = Some int →
  s !! "DEX" = Some dex → s !! "CHA" = Some cha → s !! "VIT" = Some vit →
  s !! "MAG" = Some mag →
  let total := t_base str + t_base per + t_base int + t_base dex
               + t_base cha + t_base vit + t_base mag in
  (30 < total →
   validate_primary_traits s
   = (Ok (false, Some "Too many trait points allocated."), s))
  ∧ (total < 30 →
     validate_primary_traits s
     = (Ok (false, Some "Not enough trait points allocated."), s))
  ∧ (total = 30 ↔ validate_primary_traits s = (Ok (true, None), s))
  ∧ (total = 30 ↔ ∃ msg, fst (validate_primary_traits s) = Ok (true, msg)).
Proof.
  intros H1 H2 H3 H4 H5 H6 H7 total.
  assert (Hrun : validate_primary_traits s =
            (if total >? 30 then
               ret (false, Some "Too many trait points allocated.")
             else if total <? 30 then
               ret (false, Some "Not enough trait points allocated.")
             else ret (true, None)) s).
  { unfold validate_primary_traits, bind.
    rewrite (sum_bases_primary s _ _ _ _ _ _ _ H1 H2 H3 H4 H5 H6 H7).
    reflexivity. }
  rewrite Hrun. unfold TOTAL_PRIMARY_POINTS, ret.
  destruct (Z.gtb_spec total 30) as [Hgt|Hle];
    [|destruct (Z.ltb_spec total 30) as [Hlt|Hge]]; cbn [fst].
  - split; [done|]. split; [intros; lia|].
    split; (split; [intros; lia|]).
    + intros [= ]. + intros [msg [= ]].
  - split; [intros; lia|]. split; [done|].
    split; (split; [intros; lia|]).
    + intros [= ]. + intros [msg [= ]].
  - split; [intros; lia|]. split; [intros; lia|].
    split; (split; [|intros; lia]); intros _; [done|by exists None].
Qed.

Lemma C4_validate_primary_traits_witness :
  (t_base <$> lopsided_store !! "STR" = Some 23
   ∧ t_base <$> lopsided_store !! "MAG" = Some 2)
  ∧ validate_primary_traits lopsided_store = (Ok (true, None), lopsided_store).
Proof.
  split; [split; reflexivity|].
  apply (C4_validate_primary_traits lopsided_store
           (set_base 23 (plain trait 1 "Strength"))
           (plain trait 1 "Perception") (plain trait 1 "Intelligence")
           (set_base 1 (plain trait 1 "Dexterity"))
           (set_base 1 (plain trait 1 "Charisma"))
           (set_base 1 (plain trait 1 "Vitality"))
           (set_base 2 (plain trait 0 "Magic"))
           eq_refl eq_refl eq_refl eq_refl eq_refl eq_refl eq_refl).
  reflexivity.
Defined.

Example validate_overspent :
  fst (validate_primary_traits overspent_store)
  = Ok (false, Some "Too many trait points allocated.").
Proof. vm_compute. reflexivity. Qed.

Example validate_fresh_warrior :
  fst (validate_primary_traits (traits new_Warrior))
  = Ok (false, Some "Not enough trait points allocated.").
Proof. vm_compute. reflexivity. Qed.

(** ** The derivation: what it may touch *)

Lemma same_but_refl k t : same_but k t t.
Proof. unfold same_but. tauto. Qed.

Lemma same_but_trans k t1 t2 t3 :
  same_but k t1 t2 → same_but k t2 t3 → same_but k t1 t3.
Proof.
  unfold same_but.
  intros (A1 & A2 & A3 & A4 & A5 & A6 & A7) (B1 & B2 & B3 & B4 & B5 & B6 & B7).
  repeat split; try congruence.
  - intros H. rewrite B5, A5; done.
  - intros H. rewrite B6, A6; done.
  - intros a H. rewrite B7, A7; done.
Qed.

Lemma same_but_eq k t t' :
  same_but k t t' → k ∉ BASE_WRITTEN → k ∉ MAX_WRITTEN → k ≠ "STR" → t' = t.
Proof.
  intros (A1 & A2 & A3 & A4 & A5 & A6 & A7) Hb Hm Hs.
  destruct t, t'. cbn in *. f_equal; auto.
  apply map_eq. intros a. apply A7. by left.
Qed.

Lemma frame_refl s : frame s s.
Proof. intros k. destruct (s !! k); [apply same_but_refl|done]. Qed.

Lemma frame_write s0 s k t upd :
  frame s0 s → s !! k = Some t → same_but k t (upd t) →
  frame s0 (<[k := upd t]> s).
Proof.
  intros Hf Hk Hu k'. specialize (Hf k').
  destruct (decide (k = k')) as [<-|Hne].
  - rewrite lookup_insert_eq. rewrite Hk in Hf.
    destruct (s0 !! k); [|done]. by eapply same_but_trans.
  - by rewrite lookup_insert_ne.
Qed.

Lemma preserves_ret {A} (v : A) : preserves (ret v).
Proof. intros s0 s H. exact H. Qed.

Lemma preserves_read {A} key (field : Trait → A) : preserves (read key field).
Proof. intros s0 s H. unfold read. by destruct (s !! key). Qed.

Lemma preserves_read_num key attr : preserves (read_num key attr).
Proof.
  intros s0 s H. unfold read_num.
  destruct (s !! key) as [t|]; [|done]. by destruct (t_extra t !! attr) as [[]|].
Qed.

Lemma preserves_write key upd :
  (∀ t, same_but key t (upd t)) → preserves (write key upd).
Proof.
  intros Hu s0 s H. unfold write. destruct (s !! key) as [t|] eqn:Hk; [|done].
  cbn [snd]. by apply frame_write.
Qed.

Lemma preserves_bind {A B} (m : Traits A) (k : A → Traits B) :
  preserves m → (∀ v, preserves (k v)) → preserves (bind m k).
Proof.
  intros Hm Hk s0 s H. unfold bind. specialize (Hm s0 s H).
  destruct (m s) as [[v|e] s']; cbn [snd] in *; [by apply Hk|done].
Qed.

Ltac in_list := apply (bool_decide_unpack _); vm_compute; exact I.

Lemma same_but_set_base k v t : k ∈ BASE_WRITTEN → same_but k t (set_base v t).
Proof. intros Hk. unfold same_but. cbn. repeat split; try done. Qed.

Lemma same_but_set_max k v t : k ∈ MAX_WRITTEN → same_but k t (set_max v t).
Proof. intros Hk. unfold same_but. cbn. repeat split; try done. Qed.

Lemma same_but_set_extra a v t :
  a ∈ FACTORS → same_but "STR" t (set_extra a v t).
Proof.
  intros Ha. unfold same_but. cbn. repeat split; try done.
  intros a' [?|Hna]; [done|]. apply lookup_insert_ne. by intros ->.
Qed.

Lemma calculate_secondary_traits_preserves : preserves calculate_secondary_traits.
Proof.
  unfold calculate_secondary_traits.
  repeat first
    [ apply preserves_bind; [|intros ?]
    | apply preserves_read
    | apply preserves_read_num
    | apply preserves_write; intros ?;
      first [ apply same_but_set_base; in_list
            | apply same_but_set_max; in_list
            | apply same_but_set_extra; in_list ] ].
Qed.

(** C10: the derivation leaves base and modifier of the seven primary traits
    as they were, leaves PP, ACT, LV, XP and MV (and any key it does not
    assign) untouched, and changes nothing but the base of HP, SP, FORT,
    REFL, WILL, ATKM, ATKR, ATKU and DEF, the maximum of BM, WM and ENC, and
    the three factor attributes of STR. *)
Theorem C10_derivation_frame (s : TraitTable) :
  let s' := snd (calculate_secondary_traits s) in
  (∀ k, k ∈ PRIMARY_TRAITS →
        t_base <$> s' !! k = t_base <$> s !! k
        ∧ t_mod <$> s' !! k = t_mod <$> s !! k)
  ∧ (∀ k, k ∈ ["PP"; "ACT"; "LV"; "XP"; "MV"] → s' !! k = s !! k)
  ∧ (∀ k, k ∉ BASE_WRITTEN → k ∉ MAX_WRITTEN → k ≠ "STR" → s' !! k = s !! k)
  ∧ frame s s'.
Proof.
  intros s'.
  assert (Hf : frame s s').
  { apply calculate_secondary_traits_preserves, frame_refl. }
  assert (Hother : ∀ k, k ∉ BASE_WRITTEN → k ∉ MAX_WRITTEN → k ≠ "STR" →
                        s' !! k = s !! k).
  { intros k Hb Hm Hs. specialize (Hf k).
    destruct (s !! k) as [t|], (s' !! k) as [t'|]; try done.
    f_equal. by eapply same_but_eq. }
  split; [|split; [|split; [exact Hother|exact Hf]]].
  - intros k Hk. specialize (Hf k).
    assert (Hb : k ∉ BASE_WRITTEN).
    { unfold PRIMARY_TRAITS in Hk.
      repeat (apply elem_of_cons in Hk as [->|Hk]; [in_list|]).
      by apply elem_of_nil in Hk. }
    destruct (s !! k) as [t|], (s' !! k) as [t'|]; try done.
    destruct Hf as (_ & Hmod & _ & _ & Hbase & _). cbn.
    by rewrite Hmod, (Hbase Hb).
  - intros k Hk. apply Hother;
      repeat (apply elem_of_cons in Hk as [->|Hk]; [in_list || discriminate|]);
      by apply elem_of_nil in Hk.
Qed.

(** ** The derivation: what it computes *)

Lemma write_Some key upd s t :
  s !! key = Some t → write key upd s = (Ok tt, <[key := upd t]> s).
Proof. intros H. unfold write. by rewrite H. Qed.

Lemma write_None key upd s :
  s !! key = None → write key upd s = (Raise (KeyError key), s).
Proof. intros H. unfold write. by rewrite H. Qed.

Lemma bind_read_num_Some {B} key attr (k : Z → Traits B) s t z :
  s !! key = Some t → t_extra t !! attr = Some (ENum z) →
  bind (read_num key attr) k s = k z s.
Proof. intros H Ha. unfold bind, read_num. by rewrite H, Ha. Qed.

(** A write that assigns what is there already. *)
Lemma bind_write_same {B} key upd (k : unit → Traits B) s t :
  s !! key = Some t → upd t = t → bind (write key upd) k s = k tt s.
Proof.
  intros H Hu. rewrite (bind_write_Some _ _ _ _ t H), Hu. by rewrite insert_id.
Qed.

Lemma write_same key upd s t :
  s !! key = Some t → upd t = t → write key upd s = (Ok tt, s).
Proof.
  intros H Hu. rewrite (write_Some _ _ _ t H), Hu. by rewrite insert_id.
Qed.

Lemma set_extra_same a v t : t_extra t !! a = Some v → set_extra a v t = t.
Proof.
  intros H. destruct t. unfold set_extra. cbn in *. f_equal. by apply insert_id.
Qed.

(** Looking a key up in a store that is a stack of assignments. *)
Lemma store_lookup_ne (s : TraitTable) k k' v :
  String.eqb k k' = false → <[k := v]> s !! k' = s !! k'.
Proof. intros H. apply lookup_insert_ne. by apply String.eqb_neq. Qed.

Lemma store_lookup_eq (s : TraitTable) k v : <[k := v]> s !! k = Some v.
Proof. apply lookup_insert_eq. Qed.

Lemma bag_lookup_ne (e : gmap string ExtraVal) a a' v :
  String.eqb a a' = false → <[a := v]> e !! a' = e !! a'.
Proof. intros H. apply lookup_insert_ne. by apply String.eqb_neq. Qed.

Lemma bag_lookup_eq (e : gmap string ExtraVal) a v : <[a := v]> e !! a = Some v.
Proof. apply lookup_insert_eq. Qed.

Ltac find_key :=
  repeat (rewrite store_lookup_ne by reflexivity);
  first [ apply store_lookup_eq | eassumption ].

Ltac find_attr :=
  unfold with_factors, set_extra; cbn [t_extra];
  repeat (rewrite bag_lookup_ne by reflexivity);
  first [ apply bag_lookup_eq | eassumption ].

(** One statement of a run, on a store whose needed keys are known. *)
Ltac run_step :=
  first
    [ erewrite bind_read_Some by find_key
    | erewrite bind_write_Some by find_key
    | erewrite bind_read_num_Some; [|find_key|find_attr]
    | erewrite write_Some by find_key
    | rewrite bind_read_None by find_key
    | rewrite bind_write_None by find_key
    | rewrite write_None by find_key ].

Lemma calculate_secondary_traits_run s
    vit hp sp fort dex refl int will str atkm per atkr atku def mag bm wm enc :
  s !! "VIT" = Some vit → s !! "HP" = Some hp → s !! "SP" = Some sp →
  s !! "FORT" = Some fort → s !! "DEX" = Some dex → s !! "REFL" = Some refl →
  s !! "INT" = Some int → s !! "WILL" = Some will → s !! "STR" = Some str →
  s !! "ATKM" = Some atkm → s !! "PER" = Some per → s !! "ATKR" = Some atkr →
  s !! "ATKU" = Some atku → s !! "DEF" = Some def → s !! "MAG" = Some mag →
  s !! "BM" = Some bm → s !! "WM" = Some wm → s !! "ENC" = Some enc →
  calculate_secondary_traits s
  = (Ok tt, derived_store s vit hp sp fort dex refl int will str atkm per atkr
                          atku def mag bm wm enc).
Proof.
  intros. unfold calculate_secondary_traits. repeat run_step. reflexivity.
Qed.

Ltac same_value :=
  first [ reflexivity | apply set_extra_same; find_attr ].

(** One statement of a second run: every assignment finds its value in
    place. *)
Ltac rerun_step :=
  first
    [ erewrite bind_read_Some by find_key
    | erewrite bind_write_same; [|find_key|same_value]
    | erewrite bind_read_num_Some; [|find_key|find_attr]
    | erewrite write_same; [|find_key|same_value]
    | rewrite bind_read_None by find_key
    | rewrite bind_write_None by find_key
    | rewrite write_None by find_key ].

Ltac run_twice :=
  eexists _, _; split;
  [ repeat run_step; reflexivity | repeat rerun_step; reflexivity ].

(** Whatever the store, a run ends, with a result or at the first missing
    key, and a second run from the store it leaves ends the same way in the
    same store. *)
Lemma calculate_secondary_traits_stable s :
  ∃ r s', calculate_secondary_traits s = (r, s')
          ∧ calculate_secondary_traits s' = (r, s').
Proof.
  unfold calculate_secondary_traits.
  destruct (s !! "VIT") as [vit|] eqn:Hvit; [|run_twice].
  destruct (s !! "HP") as [hp|] eqn:Hhp; [|run_twice].
  destruct (s !! "SP") as [sp|] eqn:Hsp; [|run_twice].
  destruct (s !! "FORT") as [fort|] eqn:Hfort; [|run_twice].
  destruct (s !! "DEX") as [dex|] eqn:Hdex; [|run_twice].
  destruct (s !! "REFL") as [refl|] eqn:Hrefl; [|run_twice].
  destruct (s !! "INT") as [int|] eqn:Hint; [|run_twice].
  destruct (s !! "WILL") as [will|] eqn:Hwill; [|run_twice].
  destruct (s !! "STR") as [str|] eqn:Hstr; [|run_twice].
  destruct (s !! "ATKM") as [atkm|] eqn:Hatkm; [|run_twice].
  destruct (s !! "PER") as [per|] eqn:Hper; [|run_twice].
  destruct (s !! "ATKR") as [atkr|] eqn:Hatkr; [|run_twice].
  destruct (s !! "ATKU") as [atku|] eqn:Hatku; [|run_twice].
  destruct (s !! "DEF") as [def|] eqn:Hdef; [|run_twice].
  destruct (s !! "MAG") as [mag|] eqn:Hmag; [|run_twice].
  destruct (s !! "BM") as [bm|] eqn:Hbm; [|run_twice].
  destruct (s !! "WM") as [wm|] eqn:Hwm; [|run_twice].
  destruct (s !! "ENC") as [enc|] eqn:Henc; run_twice.
Qed.

(** C7: running the derivation a second time, with nothing changed in
    between, gives the outcome and the store of the first run. *)
Theorem C7_derivation_idempotent (s : TraitTable) :
  calculate_secondary_traits (snd (calculate_secondary_traits s))
  = calculate_secondary_traits s.
Proof.
  destruct (calculate_secondary_traits_stable s) as (r & s' & H1 & H2).
  rewrite H1. cbn [snd]. exact H2.
Qed.

Ltac read_store :=
  unfold derived_store;
  repeat first [ rewrite store_lookup_eq | rewrite store_lookup_ne by reflexivity ].

(** C2: on a store that holds the traits of the derivation, the call
    succeeds and sets HP, SP and FORT base to the actual VIT, REFL, ATKU and
    DEF base to the actual DEX, WILL base to the actual INT, ATKM base to the
    actual STR, ATKR base to the actual PER, the maximum of BM and WM to 10
    when MAG base is positive and to 0 otherwise, and the maximum of ENC to
    20 times the actual STR; with actual STR 9, PER 2, INT 1, DEX 5, CHA 4,
    VIT 9 and MAG base 0 that is HP, SP, FORT, ATKM 9, REFL, ATKU, DEF 5,
    WILL 1, ATKR 2, BM and WM maximum 0 and ENC maximum 180. *)
Theorem C2_secondary_traits (s : TraitTable) :
  (∀ k, k ∈ DERIVATION_KEYS → is_Some (s !! k)) →
  ∃ s',
    calculate_secondary_traits s = (Ok tt, s')
    ∧ (t_base <$> s' !! "HP" = actual <$> s !! "VIT"
       ∧ t_base <$> s' !! "SP" = actual <$> s !! "VIT"
       ∧ t_base <$> s' !! "FORT" = actual <$> s !! "VIT"
       ∧ t_base <$> s' !! "REFL" = actual <$> s !! "DEX"
       ∧ t_base <$> s' !! "ATKU" = actual <$> s !! "DEX"
       ∧ t_base <$> s' !! "DEF" = actual <$> s !! "DEX"
       ∧ t_base <$> s' !! "WILL" = actual <$> s !! "INT"
       ∧ t_base <$> s' !! "ATKM" = actual <$> s !! "STR"
       ∧ t_base <$> s' !! "ATKR" = actual <$> s !! "PER"
       ∧ t_max <$> s' !! "BM"
         = (λ m, Some (if t_base m >? 0 then 10 else 0)) <$> s !! "MAG"
       ∧ t_max <$> s' !! "WM"
         = (λ m, Some (if t_base m >? 0 then 10 else 0)) <$> s !! "MAG"
       ∧ t_max <$> s' !! "ENC" = (λ t, Some (20 * actual t)) <$> s !! "STR")
    ∧ (∀ k, k ∈ PRIMARY_TRAITS →
            actual <$> s' !! k = actual <$> s !! k
            ∧ t_base <$> s' !! k = t_base <$> s !! k)
    ∧ (actual <$> s !! "STR" = Some 9 → actual <$> s !! "PER" = Some 2 →
       actual <$> s !! "INT" = Some 1 → actual <$> s !! "DEX" = Some 5 →
       actual <$> s !! "CHA" = Some 4 → actual <$> s !! "VIT" = Some 9 →
       t_base <$> s !! "MAG" = Some 0 →
       t_base <$> s' !! "HP" = Some 9 ∧ t_base <$> s' !! "SP" = Some 9
       ∧ t_base <$> s' !! "FORT" = Some 9 ∧ t_base <$> s' !! "REFL" = Some 5
       ∧ t_base <$> s' !! "WILL" = Some 1 ∧ t_base <$> s' !! "ATKM" = Some 9
       ∧ t_base <$> s' !! "ATKR" = Some 2 ∧ t_base <$> s' !! "ATKU" = Some 5
       ∧ t_base <$> s' !! "DEF" = Some 5
       ∧ t_max <$> s' !! "BM" = Some (Some 0)
       ∧ t_max <$> s' !! "WM" = Some (Some 0)
       ∧ t_max <$> s' !! "ENC" = Some (Some 180)).
Proof.
  intros Hkeys.
  destruct (Hkeys "VIT" ltac:(in_list)) as [vit Hvit].
  destruct (Hkeys "HP" ltac:(in_list)) as [hp Hhp].
  destruct (Hkeys "SP" ltac:(in_list)) as [sp Hsp].
  destruct (Hkeys "FORT" ltac:(in_list)) as [fort Hfort].
  destruct (Hkeys "DEX" ltac:(in_list)) as [dex Hdex].
  destruct (Hkeys "REFL" ltac:(in_list)) as [refl Hrefl].
  destruct (Hkeys "INT" ltac:(in_list)) as [int Hint].
  destruct (Hkeys "WILL" ltac:(in_list)) as [will Hwill].
  destruct (Hkeys "STR" ltac:(in_list)) as [str Hstr].
  destruct (Hkeys "ATKM" ltac:(in_list)) as [atkm Hatkm].
  destruct (Hkeys "PER" ltac:(in_list)) as [per Hper].
  destruct (Hkeys "ATKR" ltac:(in_list)) as [atkr Hatkr].
  destruct (Hkeys "ATKU" ltac:(in_list)) as [atku Hatku].
  destruct (Hkeys "DEF" ltac:(in_list)) as [def Hdef].
  destruct (Hkeys "MAG" ltac:(in_list)) as [mag Hmag].
  destruct (Hkeys "BM" ltac:(in_list)) as [bm Hbm].
  destruct (Hkeys "WM" ltac:(in_list)) as [wm Hwm].
  destruct (Hkeys "ENC" ltac:(in_list)) as [enc Henc].
  eexists. split.
  { apply (calculate_secondary_traits_run s vit hp sp fort dex refl int will
             str atkm per atkr atku def mag bm wm enc); assumption. }
  assert (Hgen :
    t_base <$> derived_store s vit hp sp fort dex refl int will str atkm per
                 atkr atku def mag bm wm enc !! "HP" = Some (actual vit)
    ∧ t_base <$> derived_store s vit hp sp fort dex refl int will str atkm per
                   atkr atku def mag bm wm enc !! "SP" = Some (actual vit)
    ∧ t_base <$> derived_store s vit hp sp fort dex refl int will str atkm per
                   atkr atku def mag bm wm enc !! "FORT" = Some (actual vit)
    ∧ t_base <$> derived_store s vit hp sp fort dex refl int will str atkm per
                   atkr atku def mag bm wm enc !! "REFL" = Some (actual dex)
    ∧ t_base <$> derived_store s vit hp sp fort dex refl int will str atkm per
                   atkr atku def mag bm wm enc !! "ATKU" = Some (actual dex)
    ∧ t_base <$> derived_store s vit hp sp fort dex refl int will str atkm per
                   atkr atku def mag bm wm enc !! "DEF" = Some (actual dex)
    ∧ t_base <$> derived_store s vit hp sp fort dex refl int will str atkm per
                   atkr atku def mag bm wm enc !! "WILL" = Some (actual int)
    ∧ t_base <$> derived_store s vit hp sp fort dex refl int will str atkm per
                   atkr atku def mag bm wm enc !! "ATKM" = Some (actual str)
    ∧ t_base <$> derived_store s vit hp sp fort dex refl int will str atkm per
                   atkr atku def mag bm wm enc !! "ATKR" = Some (actual per)
    ∧ t_max <$> derived_store s vit hp sp fort dex refl int will str atkm per
                  atkr atku def mag bm wm enc !! "BM"
      = Some (Some (if t_base mag >? 0 then 10 else 0))
    ∧ t_max <$> derived_store s vit hp sp fort dex refl int will str atkm per
                  atkr atku def mag bm wm enc !! "WM"
      = Some (Some (if t_base mag >? 0 then 10 else 0))
    ∧ t_max <$> derived_store s vit hp sp fort dex refl int will str atkm per
                  atkr atku def mag bm wm enc !! "ENC"
      = Some (Some (20 * actual str))).
  { repeat split; read_store; reflexivity. }
  rewrite Hvit, Hdex, Hint, Hstr, Hper, Hmag. cbn [fmap option_fmap option_map].
  split; [exact Hgen|]. split.
  - intros k Hk. unfold PRIMARY_TRAITS in Hk.
    repeat (apply elem_of_cons in Hk as [->|Hk];
            [read_store; rewrite ?Hstr, ?Hper, ?Hint, ?Hdex, ?Hvit, ?Hmag;
             split; reflexivity|]).
    by apply elem_of_nil in Hk.
  - intros [= Es] [= Ep] [= Ei] [= Ed] _ [= Ev] [= Em].
    rewrite Es, Ep, Ei, Ed, Ev, Em in Hgen.
    destruct Hgen as (? & ? & ? & ? & ? & ? & ? & ? & ? & ? & ? & ?).
    repeat split; assumption.
Qed.

Lemma sheet_store_keys : ∀ k, k ∈ DERIVATION_KEYS → is_Some (sheet_store !! k).
Proof.
  intros k Hk. unfold DERIVATION_KEYS in Hk.
  repeat (apply elem_of_cons in Hk as [->|Hk]; [vm_compute; eauto|]).
  by apply elem_of_nil in Hk.
Qed.

(** The store of the character sheet test: a Warrior with STR, PER, DEX and
    VIT raised by 3, 1, 1 and 3. *)
Lemma C2_secondary_traits_witness :
  ∃ s', calculate_secondary_traits sheet_store = (Ok tt, s')
        ∧ t_base <$> s' !! "HP" = Some 9 ∧ t_base <$> s' !! "SP" = Some 9
        ∧ t_base <$> s' !! "FORT" = Some 9 ∧ t_base <$> s' !! "REFL" = Some 5
        ∧ t_base <$> s' !! "WILL" = Some 1 ∧ t_base <$> s' !! "ATKM" = Some 9
        ∧ t_base <$> s' !! "ATKR" = Some 2 ∧ t_base <$> s' !! "ATKU" = Some 5
        ∧ t_base <$> s' !! "DEF" = Some 5
        ∧ t_max <$> s' !! "BM" = Some (Some 0)
        ∧ t_max <$> s' !! "WM" = Some (Some 0)
        ∧ t_max <$> s' !! "ENC" = Some (Some 180).
Proof.
  destruct (C2_secondary_traits sheet_store sheet_store_keys)
    as (s' & Hrun & _ & _ & Hvalues).
  exists s'. split; [exact Hrun|].
  apply Hvalues; reflexivity.
Defined.

(** * Further properties of the loader *)

(** ** Letter case *)

Lemma cased_char (c : ascii) :
  (if PyStr.islower c
   then PyStr.isupper c = false
        ∧ PyStr.islower (PyStr.toupper c) = false
        ∧ PyStr.isupper (PyStr.toupper c) = true
        ∧ PyStr.tolower c = c
   else True)
  ∧ (if PyStr.isupper c
     then PyStr.islower c = false
          ∧ PyStr.islower (PyStr.tolower c) = true
          ∧ PyStr.toupper (PyStr.tolower c) = c
     else PyStr.tolower c = c).
Proof.
  destruct c as [[] [] [] [] [] [] [] []]; vm_compute; repeat split.
Qed.

Lemma title_from_idempotent b s :
  PyStr.title_from b (PyStr.title_from b s) = PyStr.title_from b s.
Proof.
  revert b. induction s as [|c s IH]; intros b; [reflexivity|].
  pose proof (cased_char c) as [Hl Hu].
  cbn [PyStr.title_from].
  destruct (PyStr.islower c) eqn:El.
  - destruct Hl as (Hnu & Hl1 & Hl2 & _). destruct b; cbn [PyStr.title_from].
    + by rewrite El, IH.
    + by rewrite Hl1, Hl2, IH.
  - destruct (PyStr.isupper c) eqn:Eu.
    + destruct Hu as (_ & Hu1 & _). destruct b; cbn [PyStr.title_from].
      * by rewrite Hu1, IH.
      * by rewrite El, Eu, IH.
    + cbn [PyStr.title_from]. by rewrite El, Eu, IH.
Qed.

Lemma title_from_lower b s :
  PyStr.title_from b (PyStr.lower s) = PyStr.title_from b s.
Proof.
  revert b. induction s as [|c s IH]; intros b; [reflexivity|].
  pose proof (cased_char c) as [Hl Hu].
  cbn [PyStr.lower PyStr.title_from].
  destruct (PyStr.islower c) eqn:El.
  - destruct Hl as (Hnu & _ & _ & Hlow). rewrite Hlow, El. by rewrite IH.
  - destruct (PyStr.isupper c) eqn:Eu.
    + destruct Hu as (_ & Hu1 & Hu2). rewrite Hu1, Hu2.
      rewrite IH. by destruct b.
    + rewrite Hu, El, Eu. by rewrite IH.
Qed.

(** X1: [load_archetype] does not look at the letter case of its argument:
    the lower-cased and the title-cased name load what the name loads, an
    archetype or an exception alike. *)
Theorem X1_load_archetype_ignores_case (roll_max : option string → Z) (n : string) :
  load_archetype roll_max (PyStr.lower n) = load_archetype roll_max n
  ∧ load_archetype roll_max (PyStr.title n) = load_archetype roll_max n.
Proof.
  split.
  - rewrite (load_archetype_unfold roll_max (PyStr.lower n)),
      (load_archetype_unfold roll_max n).
    unfold PyStr.title. by rewrite title_from_lower.
  - rewrite (load_archetype_unfold roll_max (PyStr.title n)),
      (load_archetype_unfold roll_max n).
    unfold PyStr.title. by rewrite title_from_idempotent.
Qed.


(** ** What the loader can return *)

Lemma pair_cases (x y z : string) :
  z ∈ ({[ x; y ]} : gset string) → z = x ∨ z = y.
Proof.
  intros H. apply elem_of_union in H as [H|H]; apply elem_of_singleton in H; auto.
Qed.

Lemma names_pair_inv na nb n :
  names !! ({[ na; nb ]} : gset string) = Some n →
  na ∈ VALID_ARCHETYPES ∧ nb ∈ VALID_ARCHETYPES ∧ n ∈ DUAL_NAMES.
Proof.
  intros H. apply elem_of_list_to_map_2 in H.
  assert (Hna : na ∈ ({[ na; nb ]} : gset string)).
  { apply elem_of_union. left. by apply elem_of_singleton. }
  assert (Hnb : nb ∈ ({[ na; nb ]} : gset string)).
  { apply elem_of_union. right. by apply elem_of_singleton. }
  repeat (apply elem_of_cons in H as [H|H];
          [pose proof (f_equal fst H) as Hset; pose proof (f_equal snd H) as Hn;
           cbn [fst snd] in Hset, Hn; subst n; rewrite Hset in Hna, Hnb;
           apply pair_cases in Hna as [-> | ->];
           apply pair_cases in Hnb as [-> | ->];
           (split; [in_list|split; in_list])|]).
  by apply elem_of_nil in H.
Qed.

Lemma make_dual_Ok_inv rm a b d :
  _make_dual rm a b = Ok d →
  ∃ na nb n,
    name a = Some na ∧ name b = Some nb
    ∧ PyStr.has_hyphen na = false ∧ PyStr.has_hyphen nb = false ∧ na ≠ nb
    ∧ names !! ({[ na; nb ]} : gset string) = Some n
    ∧ d = mkArchetype (Some n) (merged_traits a b)
            (min_by_roll rm (health_roll a) (health_roll b)).
Proof.
  unfold _make_dual, hyphen_in, rbind.
  destruct (name a) as [na|] eqn:Ha; [|discriminate].
  destruct (PyStr.has_hyphen na) eqn:Hna; [discriminate|].
  destruct (name b) as [nb|] eqn:Hb; [|discriminate].
  destruct (PyStr.has_hyphen nb) eqn:Hnb; [discriminate|].
  destruct (decide (Some na = Some nb)) as [|Hne]; [discriminate|].
  cbn [default].
  destruct (names !! _) as [n|] eqn:Hn; [|discriminate].
  intros [= <-]. exists na, nb, n.
  do 4 (split; [assumption || reflexivity|]). split; [congruence|].
  split; [exact Hn|reflexivity].
Qed.

Lemma dual_name_hyphen n : n ∈ DUAL_NAMES → PyStr.has_hyphen n = true.
Proof.
  unfold DUAL_NAMES. intros H.
  repeat (apply elem_of_cons in H as [->|H]; [reflexivity|]).
  by apply elem_of_nil in H.
Qed.

Lemma single_valid_name A : A ∈ VALID_ARCHETYPES → name (single A) = Some A.
Proof. intros H. by apply valid_cases in H as [-> | [-> | ->]]. Qed.

(** An archetype loaded under a name without hyphen. *)
Lemma load_single_Ok_inv rm n d :
  PyStr.has_hyphen n = false → load_archetype rm n = Ok d →
  (PyStr.title n = "Archetype" ∧ d = new_Archetype)
  ∨ (PyStr.title n ∈ VALID_ARCHETYPES ∧ d = single (PyStr.title n)).
Proof.
  intros Hn. rewrite (load_archetype_single rm n Hn).
  repeat case_decide; intros [= <-]; try discriminate.
  - by left.
  - right. rewrite H0. split; [in_list|reflexivity].
  - right. rewrite H1. split; [in_list|reflexivity].
  - right. rewrite H2. split; [in_list|reflexivity].
Qed.

(** Every archetype the loader returns is the base class, one of the three
    valid archetypes, or the merge of two different valid archetypes. *)
Lemma load_archetype_Ok_inv rm n d :
  load_archetype rm n = Ok d →
  (PyStr.has_hyphen n = false ∧ PyStr.title n = "Archetype" ∧ d = new_Archetype)
  ∨ (PyStr.has_hyphen n = false ∧ PyStr.title n ∈ VALID_ARCHETYPES
     ∧ d = single (PyStr.title n))
  ∨ (PyStr.has_hyphen n = true
     ∧ PyStr.has_hyphen (snd (PyStr.split_hyphen (PyStr.title n))) = false
     ∧ ∃ A B m, A ∈ VALID_ARCHETYPES ∧ B ∈ VALID_ARCHETYPES ∧ A ≠ B
         ∧ names !! ({[ A; B ]} : gset string) = Some m
         ∧ d = mkArchetype (Some m) (merged_traits (single A) (single B))
                 (min_by_roll rm (health_roll (single A))
                                 (health_roll (single B)))).
Proof.
  intros Hload.
  destruct (PyStr.has_hyphen n) eqn:Hn.
  2: { destruct (load_single_Ok_inv rm n d Hn Hload) as [[? ?]|[? ?]]; auto. }
  right. right. split; [reflexivity|].
  rewrite load_archetype_unfold, title_has_hyphen, Hn in Hload.
  set (l := fst (PyStr.split_hyphen (PyStr.title n))) in *.
  set (r := snd (PyStr.split_hyphen (PyStr.title n))) in *.
  unfold rbind in Hload.
  destruct (load_archetype rm l) as [a|] eqn:Hl; [|discriminate Hload].
  destruct (load_archetype rm r) as [b|] eqn:Hr; [|discriminate Hload].
  apply make_dual_Ok_inv in Hload
    as (na & nb & m & Ha & Hb & Hna & Hnb & Hne & Hm & ->).
  destruct (names_pair_inv na nb m Hm) as (HA & HB & _).
  assert (Hpart : ∀ p x nx, load_archetype rm p = Ok x → name x = Some nx →
            PyStr.has_hyphen nx = false → nx ∈ VALID_ARCHETYPES →
            PyStr.has_hyphen p = false ∧ x = single nx).
  { intros p x nx Hp Hx Hh Hv.
    destruct (PyStr.has_hyphen p) eqn:Ep.
    - exfalso. rewrite load_archetype_unfold, title_has_hyphen, Ep in Hp.
      set (pl := fst (PyStr.split_hyphen (PyStr.title p))) in *.
      set (pr := snd (PyStr.split_hyphen (PyStr.title p))) in *.
      unfold rbind in Hp.
      destruct (load_archetype rm pl) as [a'|] eqn:Hpl; [|discriminate Hp].
      destruct (load_archetype rm pr) as [b'|] eqn:Hpr; [|discriminate Hp].
      apply make_dual_Ok_inv in Hp as (? & ? & m' & _ & _ & _ & _ & _ & Hm' & ->).
      cbn in Hx. injection Hx as ->.
      apply names_pair_inv in Hm' as (_ & _ & Hd).
      apply dual_name_hyphen in Hd. congruence.
    - split; [reflexivity|].
      destruct (load_single_Ok_inv rm p x Ep Hp) as [[_ ->]|[Hv' ->]];
        [discriminate|].
      rewrite (single_valid_name _ Hv') in Hx. by injection Hx as ->. }
  destruct (Hpart l a na Hl Ha Hna HA) as [_ ->].
  destruct (Hpart r b nb Hr Hb Hnb HB) as [Hrh ->].
  split; [exact Hrh|].
  exists na, nb, m. repeat split; done.
Qed.

(** X2: for a name without hyphen, [load_archetype] returns the Warrior, the
    Scout or the Arcanist when the title-cased name is theirs, raises the
    invalid-archetype error when the title-cased name is none of Archetype,
    Arcanist, Scout and Warrior, and returns an archetype for no other
    name. *)
Theorem X2_load_single_names (roll_max : option string → Z) (n : string) :
  PyStr.has_hyphen n = false →
  (PyStr.title n ∈ VALID_ARCHETYPES →
   load_archetype roll_max n = Ok (single (PyStr.title n))
   ∧ name (single (PyStr.title n)) = Some (PyStr.title n))
  ∧ (PyStr.title n ∉ LOADABLE →
     load_archetype roll_max n
     = Raise (ArchetypeException "Invalid archetype specified."))
  ∧ (∀ d, load_archetype roll_max n = Ok d → PyStr.title n ∈ LOADABLE).
Proof.
  intros Hn. split; [|split].
  - intros Hv. split; [|by apply single_valid_name].
    rewrite (load_archetype_single roll_max n Hn).
    apply valid_cases in Hv as [-> | [-> | ->]]; reflexivity.
  - intros Hnot. by apply load_archetype_other_names.
  - intros d Hd.
    destruct (load_single_Ok_inv roll_max n d Hn Hd) as [[-> _]|[Hv _]];
      [in_list|].
    apply valid_cases in Hv as [-> | [-> | ->]]; in_list.
Qed.

Lemma X2_load_single_names_witness :
  load_archetype (λ _, 0) "sCOUT" = Ok new_Scout
  ∧ load_archetype (λ _, 0) "paladin"
    = Raise (ArchetypeException "Invalid archetype specified.").
Proof.
  split.
  - apply (X2_load_single_names (λ _, 0) "sCOUT" eq_refl). in_list.
  - apply (X2_load_single_names (λ _, 0) "paladin" eq_refl). in_list.
Defined.

Lemma loaded_dom rm n d :
  load_archetype rm n = Ok d → dom (traits d) = list_to_set ALL_TRAITS.
Proof.
  intros H. apply load_archetype_Ok_inv in H
    as [(_ & _ & ->)|[(_ & Hv & ->)|(_ & _ & A & B & m & _ & _ & _ & _ & ->)]].
  - apply default_values.
  - transitivity (dom default_traits); [|apply default_values].
    unfold single, new_Arcanist, new_Scout, new_Warrior, named, override_base,
      override_mod.
    repeat case_decide; cbn [traits]; by rewrite !dom_alter_L.
  - cbn [traits]. apply merged_traits_dom.
Qed.

(** X3: whatever the name, an archetype that [load_archetype] returns has
    exactly the traits of [ALL_TRAITS] in its table, and its name is [None]
    (the base class), one of the three valid names or one of the three dual
    names of the table in [_make_dual]. *)
Theorem X3_loaded_name_and_keys (roll_max : option string → Z) (n : string)
    (d : Archetype) :
  load_archetype roll_max n = Ok d →
  dom (traits d) = list_to_set ALL_TRAITS
  ∧ (name d = None
     ∨ (∃ m, name d = Some m ∧ m ∈ VALID_ARCHETYPES)
     ∨ (∃ m, name d = Some m ∧ m ∈ DUAL_NAMES)).
Proof.
  intros H. split; [by eapply loaded_dom|].
  apply load_archetype_Ok_inv in H
    as [(_ & _ & ->)|[(_ & Hv & ->)|(_ & _ & A & B & m & _ & _ & _ & Hm & ->)]].
  - by left.
  - right. left. exists (PyStr.title n). split; [by apply single_valid_name|done].
  - right. right. exists m. split; [reflexivity|].
    by apply names_pair_inv in Hm as (_ & _ & ?).
Qed.

Lemma X3_loaded_name_and_keys_witness :
  dom (merged_traits new_Arcanist new_Warrior) = list_to_set ALL_TRAITS
  ∧ (Some "Warrior-Arcanist" = None
     ∨ (∃ m, Some "Warrior-Arcanist" = Some m ∧ m ∈ VALID_ARCHETYPES)
     ∨ (∃ m, Some "Warrior-Arcanist" = Some m ∧ m ∈ DUAL_NAMES)).
Proof.
  apply (X3_loaded_name_and_keys (λ _, 0) "arcanist-warrior"
           (mkArchetype (Some "Warrior-Arcanist")
              (merged_traits new_Arcanist new_Warrior) (Some "1d6-1"))).
  vm_compute. reflexivity.
Defined.

(** Splitting commutes with title-casing. *)
Lemma split_title_from b s :
  PyStr.split_hyphen (PyStr.title_from b s)
  = (PyStr.title_from b (fst (PyStr.split_hyphen s)),
     PyStr.title_from false (snd (PyStr.split_hyphen s))).
Proof.
  revert b. induction s as [|c s IH]; intros b; [reflexivity|].
  destruct (title_char_hyphen c) as (Hcased & Hup & Hlow).
  cbn [PyStr.title_from PyStr.split_hyphen].
  destruct (PyStr.islower c) eqn:El; [|destruct (PyStr.isupper c) eqn:Eu].
  - rewrite (Hcased (or_introl eq_refl)).
    destruct (PyStr.split_hyphen s) as [l r] eqn:Es.
    cbn [PyStr.split_hyphen fst snd PyStr.title_from]. rewrite El.
    destruct b; rewrite ?Hup, (Hcased (or_introl eq_refl)), IH; reflexivity.
  - rewrite (Hcased (or_intror eq_refl)).
    destruct (PyStr.split_hyphen s) as [l r] eqn:Es.
    cbn [PyStr.split_hyphen fst snd PyStr.title_from]. rewrite El, Eu.
    destruct b; rewrite ?Hlow, (Hcased (or_intror eq_refl)), IH; reflexivity.
  - cbn [PyStr.split_hyphen].
    destruct (Ascii.eqb c PyStr.hyphen) eqn:Eh; [reflexivity|].
    destruct (PyStr.split_hyphen s) as [l r] eqn:Es.
    cbn [fst snd PyStr.title_from]. rewrite El, Eu, IH. reflexivity.
Qed.

(** X4: a name with two or more hyphens never loads: whatever its parts,
    [load_archetype] raises. *)
Theorem X4_no_triple_loads (roll_max : option string → Z) (n : string) :
  PyStr.has_hyphen (snd (PyStr.split_hyphen n)) = true →
  ∀ d, load_archetype roll_max n ≠ Ok d.
Proof.
  intros Hn d Hd.
  apply load_archetype_Ok_inv in Hd as [(Hh & _)|[(Hh & _)|(_ & Hr & _)]].
  - revert Hn Hh. clear. induction n as [|c n IH]; cbn; [done|].
    destruct (Ascii.eqb c PyStr.hyphen); [done|].
    destruct (PyStr.split_hyphen n). cbn in *. auto.
  - revert Hn Hh. clear. induction n as [|c n IH]; cbn; [done|].
    destruct (Ascii.eqb c PyStr.hyphen); [done|].
    destruct (PyStr.split_hyphen n). cbn in *. auto.
  - unfold PyStr.title in Hr. rewrite split_title_from in Hr. cbn [snd] in Hr.
    rewrite title_from_has_hyphen in Hr. congruence.
Qed.

Lemma X4_no_triple_loads_witness :
  ¬ ∃ d, load_archetype (λ _, 0) "warrior-scout-arcanist" = Ok d.
Proof.
  intros [d Hd].
  apply (X4_no_triple_loads (λ _, 0) "warrior-scout-arcanist" eq_refl d Hd).
Defined.

(** The dual name of a pair loads the merge of the pair. *)
Lemma dual_reload rm A B m :
  A ∈ VALID_ARCHETYPES → B ∈ VALID_ARCHETYPES → A ≠ B →
  names !! ({[ A; B ]} : gset string) = Some m →
  ∃ d', load_archetype rm m = Ok d'
        ∧ traits d' = merged_traits (single A) (single B)
        ∧ name d' = Some m.
Proof.
  intros HA HB Hne Hm.
  assert (Hpair : ∀ X Y, X ∈ VALID_ARCHETYPES → Y ∈ VALID_ARCHETYPES → X ≠ Y →
            names !! ({[ X; Y ]} : gset string) = Some (PyStr.join_hyphen X Y) →
            ∃ d', load_archetype rm (PyStr.join_hyphen X Y) = Ok d'
                  ∧ traits d' = merged_traits (single X) (single Y)
                  ∧ name d' = Some (PyStr.join_hyphen X Y)).
  { intros X Y HX HY Hxy Hn.
    destruct (load_valid rm X HX) as (_ & HnX & HhX & _).
    destruct (load_valid rm Y HY) as (_ & HnY & HhY & _).
    exists (mkArchetype (Some (PyStr.join_hyphen X Y))
              (merged_traits (single X) (single Y))
              (min_by_roll rm (health_roll (single X)) (health_roll (single Y)))).
    cbn [traits name]. split; [|split; reflexivity].
    rewrite load_dual by assumption.
    apply (make_dual_ok rm _ _ X Y); assumption. }
  apply valid_cases in HA as [-> | [-> | ->]];
    apply valid_cases in HB as [-> | [-> | ->]]; try congruence;
    vm_compute in Hm; injection Hm as <-.
  - (* Arcanist, Scout *)
    apply (Hpair "Arcanist" "Scout"); [in_list|in_list|done|vm_compute; reflexivity].
  - (* Arcanist, Warrior *)
    destruct (Hpair "Warrior" "Arcanist") as (d' & H1 & H2 & H3);
      [in_list|in_list|done|vm_compute; reflexivity|].
    exists d'. split; [exact H1|]. split; [|exact H3].
    rewrite H2. apply merged_traits_comm.
  - (* Scout, Arcanist *)
    destruct (Hpair "Arcanist" "Scout") as (d' & H1 & H2 & H3);
      [in_list|in_list|done|vm_compute; reflexivity|].
    exists d'. split; [exact H1|]. split; [|exact H3].
    rewrite H2. apply merged_traits_comm.
  - (* Scout, Warrior *)
    destruct (Hpair "Warrior" "Scout") as (d' & H1 & H2 & H3);
      [in_list|in_list|done|vm_compute; reflexivity|].
    exists d'. split; [exact H1|]. split; [|exact H3].
    rewrite H2. apply merged_traits_comm.
  - (* Warrior, Arcanist *)
    apply (Hpair "Warrior" "Arcanist"); [in_list|in_list|done|vm_compute; reflexivity].
  - (* Warrior, Scout *)
    apply (Hpair "Warrior" "Scout"); [in_list|in_list|done|vm_compute; reflexivity].
Qed.

(** X5: the name of a loaded archetype is enough to load it again: when
    [load_archetype] returns an archetype with a name, loading that name
    returns an archetype with the same name and the same trait table. *)
Theorem X5_load_by_own_name (roll_max : option string → Z) (n m : string)
    (d : Archetype) :
  load_archetype roll_max n = Ok d → name d = Some m →
  ∃ d', load_archetype roll_max m = Ok d'
        ∧ traits d' = traits d ∧ name d' = Some m.
Proof.
  intros Hd Hm.
  apply load_archetype_Ok_inv in Hd
    as [(_ & _ & ->)|[(_ & Hv & ->)|(_ & _ & A & B & m' & HA & HB & Hne & Hn & ->)]].
  - discriminate Hm.
  - rewrite (single_valid_name _ Hv) in Hm. injection Hm as <-.
    exists (single (PyStr.title n)).
    destruct (load_valid roll_max _ Hv) as (Hl & Hname & _). by rewrite Hl.
  - cbn [name] in Hm. injection Hm as <-. cbn [traits].
    by apply (dual_reload roll_max A B).
Qed.

Lemma X5_load_by_own_name_witness :
  ∃ d', load_archetype (λ _, 0) "Arcanist-Scout" = Ok d'
        ∧ traits d' = merged_traits new_Scout new_Arcanist
        ∧ name d' = Some "Arcanist-Scout".
Proof.
  apply (X5_load_by_own_name (λ _, 0) "sCout-arCANist" "Arcanist-Scout"
           (mkArchetype (Some "Arcanist-Scout")
              (merged_traits new_Scout new_Arcanist) (Some "1d6"))).
  - vm_compute. reflexivity.
  - reflexivity.
Defined.

(** ** Budget of a loaded archetype *)

(** What the two budget functions give on a table whose primary bases are
    known. *)
Lemma primary_bases_run (m : TraitTable) (b1 b2 b3 b4 b5 b6 b7 : Z) :
  (λ k, t_base <$> m !! k) <$> PRIMARY_TRAITS
  = [Some b1; Some b2; Some b3; Some b4; Some b5; Some b6; Some b7] →
  let total := b1 + b2 + b3 + b4 + b5 + b6 + b7 in
  get_remaining_allocation m = (Ok (30 - total), m)
  ∧ validate_primary_traits m
    = (if total >? 30 then
         (Ok (false, Some "Too many trait points allocated."), m)
       else if total <? 30 then
         (Ok (false, Some "Not enough trait points allocated."), m)
       else (Ok (true, None), m))
  ∧ Forall2 (λ k b, ∃ t, m !! k = Some t ∧ t_base t = b) PRIMARY_TRAITS
            [b1; b2; b3; b4; b5; b6; b7].
Proof.
  intros H total. unfold PRIMARY_TRAITS in H. cbn [fmap list_fmap] in H.
  injection H as H1 H2 H3 H4 H5 H6 H7.
  apply fmap_Some in H1 as (t1 & H1 & E1). apply fmap_Some in H2 as (t2 & H2 & E2).
  apply fmap_Some in H3 as (t3 & H3 & E3). apply fmap_Some in H4 as (t4 & H4 & E4).
  apply fmap_Some in H5 as (t5 & H5 & E5). apply fmap_Some in H6 as (t6 & H6 & E6).
  apply fmap_Some in H7 as (t7 & H7 & E7).
  assert (Hsum : sum_bases 0 PRIMARY_TRAITS m = (Ok total, m)).
  { rewrite (sum_bases_primary m _ _ _ _ _ _ _ H1 H2 H3 H4 H5 H6 H7).
    unfold total. by rewrite E1, E2, E3, E4, E5, E6, E7. }
  split; [|split].
  - unfold get_remaining_allocation, bind. by rewrite Hsum.
  - unfold validate_primary_traits, bind. rewrite Hsum. unfold ret.
    unfold TOTAL_PRIMARY_POINTS. by repeat case_match.
  - unfold PRIMARY_TRAITS. repeat constructor; eauto.
Qed.

Lemma single_names :
  single "Arcanist" = new_Arcanist ∧ single "Scout" = new_Scout
  ∧ single "Warrior" = new_Warrior.
Proof. repeat split. Qed.

Lemma budget_of_bases (m : TraitTable) (b1 b2 b3 b4 b5 b6 b7 : Z) :
  (λ k, t_base <$> m !! k) <$> PRIMARY_TRAITS
  = [Some b1; Some b2; Some b3; Some b4; Some b5; Some b6; Some b7] →
  7 ≤ 30 - (b1 + b2 + b3 + b4 + b5 + b6 + b7) ≤ 24 →
  Forall (λ b, 1 ≤ b ≤ 10) [b1; b2; b3; b4; b5; b6] → 0 ≤ b7 ≤ 10 →
  ∃ r,
    get_remaining_allocation m = (Ok r, m)
    ∧ (7 ≤ r ≤ 24)
    ∧ fst (validate_primary_traits m)
      = Ok (false, Some "Not enough trait points allocated.")
    ∧ ∀ k, k ∈ PRIMARY_TRAITS →
        ∃ t, m !! k = Some t
             ∧ (if decide (k = "MAG") then 0 else 1) ≤ t_base t ≤ 10.
Proof.
  intros Hbases Hr Hb Hmag.
  destruct (primary_bases_run m _ _ _ _ _ _ _ Hbases) as (Hrem & Hval & Hall).
  eexists. split; [exact Hrem|]. split; [exact Hr|]. split.
  - rewrite Hval.
    destruct (Z.gtb_spec (b1 + b2 + b3 + b4 + b5 + b6 + b7) 30); [lia|].
    destruct (Z.ltb_spec (b1 + b2 + b3 + b4 + b5 + b6 + b7) 30); [done|lia].
  - intros k Hk. unfold PRIMARY_TRAITS in Hk, Hall.
    repeat (apply Forall2_cons_1 in Hall as [(? & ? & ?) Hall]).
    repeat (apply Forall_cons_1 in Hb as [? Hb]).
    repeat (apply elem_of_cons in Hk as [->|Hk];
            [eexists; split; [eassumption|]; subst;
             case_decide; first [discriminate | congruence | lia]|]).
    by apply elem_of_nil in Hk.
Qed.

Ltac budget_case m :=
  let Hbases := fresh "Hbases" in
  let v := eval vm_compute in ((λ k, t_base <$> m !! k) <$> PRIMARY_TRAITS) in
  assert (Hbases : (λ k, t_base <$> m !! k) <$> PRIMARY_TRAITS = v)
    by (vm_compute; reflexivity);
  apply (budget_of_bases m _ _ _ _ _ _ _ Hbases);
  [ split; discriminate
  | repeat (apply Forall_cons_2; [split; discriminate|]); apply Forall_nil_2
  | split; discriminate ].

(** X6: every archetype that [load_archetype] returns leaves points to
    allocate: between 7 and 24 of the 30 are unspent, so
    [validate_primary_traits] answers "Not enough" on its table, and each
    primary base lies between 1 and 10 (MAG between 0 and 10), the bound the
    module states for primary traits. *)
Theorem X6_loaded_budget (roll_max : option string → Z) (n : string)
    (d : Archetype) :
  load_archetype roll_max n = Ok d →
  ∃ r,
    get_remaining_allocation (traits d) = (Ok r, traits d)
    ∧ (7 ≤ r ≤ 24)
    ∧ fst (validate_primary_traits (traits d))
      = Ok (false, Some "Not enough trait points allocated.")
    ∧ ∀ k, k ∈ PRIMARY_TRAITS →
        ∃ t, traits d !! k = Some t
             ∧ (if decide (k = "MAG") then 0 else 1) ≤ t_base t ≤ 10.
Proof.
  destruct single_names as (EA & ES & EW).
  intros H. apply load_archetype_Ok_inv in H
    as [(_ & _ & ->)|[(_ & Hv & ->)|(_ & _ & A & B & m & HA & HB & Hne & _ & ->)]].
  - budget_case (traits new_Archetype).
  - apply valid_cases in Hv as [-> | [-> | ->]]; rewrite ?EA, ?ES, ?EW.
    + budget_case (traits new_Arcanist).
    + budget_case (traits new_Scout).
    + budget_case (traits new_Warrior).
  - cbn [traits].
    apply valid_cases in HA as [-> | [-> | ->]];
      apply valid_cases in HB as [-> | [-> | ->]];
      try (exfalso; apply Hne; reflexivity); rewrite ?EA, ?ES, ?EW.
    + budget_case (merged_traits new_Arcanist new_Scout).
    + budget_case (merged_traits new_Arcanist new_Warrior).
    + budget_case (merged_traits new_Scout new_Arcanist).
    + budget_case (merged_traits new_Scout new_Warrior).
    + budget_case (merged_traits new_Warrior new_Arcanist).
    + budget_case (merged_traits new_Warrior new_Scout).
Qed.

Lemma X6_loaded_budget_witness :
  ∃ r,
    get_remaining_allocation (traits new_Arcanist) = (Ok r, traits new_Arcanist)
    ∧ (7 ≤ r ≤ 24)
    ∧ fst (validate_primary_traits (traits new_Arcanist))
      = Ok (false, Some "Not enough trait points allocated.")
    ∧ ∀ k, k ∈ PRIMARY_TRAITS →
        ∃ t, traits new_Arcanist !! k = Some t
             ∧ (if decide (k = "MAG") then 0 else 1) ≤ t_base t ≤ 10.
Proof.
  apply (X6_loaded_budget (λ _, 0) "ARCANIST" new_Arcanist).
  vm_compute. reflexivity.
Defined.

(** ** The health roll of a dual archetype *)

(** X7: the dual of two different valid archetypes takes the health roll
    that [roll_max] ranks lower.  When [roll_max] tells the two rolls apart,
    "A-B" and "B-A" load the same archetype; on a tie each keeps the roll of
    its first component, so the two differ in their health roll. *)
Theorem X7_dual_health_roll (roll_max : option string → Z) (A B : string) :
  A ∈ VALID_ARCHETYPES → B ∈ VALID_ARCHETYPES → A ≠ B →
  let ha := health_roll (single A) in
  let hb := health_roll (single B) in
  ∃ d d',
    load_archetype roll_max (PyStr.join_hyphen A B) = Ok d
    ∧ load_archetype roll_max (PyStr.join_hyphen B A) = Ok d'
    ∧ roll_max (health_roll d) = Z.min (roll_max ha) (roll_max hb)
    ∧ roll_max (health_roll d') = Z.min (roll_max ha) (roll_max hb)
    ∧ (roll_max ha ≠ roll_max hb → d' = d)
    ∧ (roll_max ha = roll_max hb → health_roll d = ha ∧ health_roll d' = hb).
Proof.
  intros HA HB Hne ha hb.
  destruct (load_valid roll_max A HA) as (_ & HnA & HhA & _).
  destruct (load_valid roll_max B HB) as (_ & HnB & HhB & _).
  destruct (names_lookup A B HA HB Hne) as (n & Hn & Hn' & _).
  exists (mkArchetype (Some n) (merged_traits (single A) (single B))
            (min_by_roll roll_max ha hb)).
  exists (mkArchetype (Some n) (merged_traits (single B) (single A))
            (min_by_roll roll_max hb ha)).
  split.
  { rewrite load_dual by assumption.
    apply (make_dual_ok roll_max _ _ A B n); assumption. }
  split.
  { rewrite load_dual by assumption.
    apply (make_dual_ok roll_max _ _ B A n); try assumption. congruence. }
  cbn [health_roll]. unfold min_by_roll.
  destruct (Z.ltb_spec (roll_max hb) (roll_max ha)) as [Hlt|Hge];
    destruct (Z.ltb_spec (roll_max ha) (roll_max hb)) as [Hlt'|Hge'];
    try lia.
  - split; [lia|]. split; [lia|]. split; [|lia].
    intros _. f_equal. apply merged_traits_comm.
  - split; [lia|]. split; [lia|]. split; [|lia].
    intros _. f_equal. apply merged_traits_comm.
  - split; [lia|]. split; [lia|]. split; [lia|].
    intros _. split; reflexivity.
Qed.

Lemma X7_dual_health_roll_witness :
  ∃ d d',
    load_archetype (λ _, 0) (PyStr.join_hyphen "Warrior" "Scout") = Ok d
    ∧ load_archetype (λ _, 0) (PyStr.join_hyphen "Scout" "Warrior") = Ok d'
    ∧ health_roll d = Some "1d6+1" ∧ health_roll d' = Some "1d6".
Proof.
  destruct (X7_dual_health_roll (λ _, 0) "Warrior" "Scout")
    as (d & d' & H1 & H2 & _ & _ & _ & Htie).
  - in_list.
  - in_list.
  - discriminate.
  - exists d, d'. split; [exact H1|]. split; [exact H2|]. apply Htie. reflexivity.
Defined.

(** ** Merging outside the three pairs *)

(** X8: a component without a name makes the merge raise [TypeError], and
    [load_archetype] lets it through: a pair that names the base class next
    to a valid archetype raises [TypeError], not the invalid-archetype
    error. *)
Theorem X8_unnamed_component (roll_max : option string → Z) :
  (∀ a b, name a = None → _make_dual roll_max a b = Raise TypeError)
  ∧ (∀ a b na, name a = Some na → PyStr.has_hyphen na = false →
               name b = None → _make_dual roll_max a b = Raise TypeError)
  ∧ (∀ B, B ∈ VALID_ARCHETYPES →
          load_archetype roll_max (PyStr.join_hyphen "archetype" B)
          = Raise TypeError
          ∧ load_archetype roll_max (PyStr.join_hyphen B "archetype")
            = Raise TypeError).
Proof.
  split; [|split].
  - intros a b Ha. unfold _make_dual, hyphen_in. rewrite Ha. reflexivity.
  - intros a b na Ha Hna Hb. unfold _make_dual, hyphen_in, rbind.
    rewrite Ha, Hna, Hb. reflexivity.
  - intros B HB.
    apply valid_cases in HB as [-> | [-> | ->]]; split; vm_compute; reflexivity.
Qed.

(** X9: two components with different hyphen-free names of which one is no
    valid archetype are outside the table of dual names: the merge raises
    [KeyError] and returns nothing. *)
Theorem X9_unknown_pair (roll_max : option string → Z) (a b : Archetype)
    (na nb : string) :
  name a = Some na → name b = Some nb →
  PyStr.has_hyphen na = false → PyStr.has_hyphen nb = false → na ≠ nb →
  na ∉ VALID_ARCHETYPES ∨ nb ∉ VALID_ARCHETYPES →
  ∃ key, _make_dual roll_max a b = Raise (KeyError key).
Proof.
  intros Ha Hb Hna Hnb Hne Hinvalid.
  unfold _make_dual, hyphen_in, rbind. rewrite Ha, Hb, Hna, Hnb.
  destruct (decide (Some na = Some nb)) as [Heq|_]; [congruence|].
  cbn [default from_option id].
  destruct (names !! ({[ na; nb ]} : gset string)) as [n|] eqn:Hn.
  - apply names_pair_inv in Hn as (? & ? & _). tauto.
  - eexists. reflexivity.
Qed.

Lemma X9_unknown_pair_witness :
  ∃ key, _make_dual (λ _, 0) (mkArchetype (Some "Paladin") ∅ None) new_Scout
         = Raise (KeyError key).
Proof.
  apply (X9_unknown_pair (λ _, 0) (mkArchetype (Some "Paladin") ∅ None) new_Scout
           "Paladin" "Scout" eq_refl eq_refl eq_refl eq_refl).
  - discriminate.
  - left. in_list.
Defined.

(** X10: the merged table is the default table with new bases and
    modifiers: it has the keys of the default table only, keeps type, bounds,
    display name and extra data of each default entry, and where a component
    lacks a key the default entry stands in for it in the halved sum. *)
Theorem X10_merge_over_defaults (roll_max : option string → Z)
    (a b d : Archetype) :
  _make_dual roll_max a b = Ok d →
  (∀ k, default_traits !! k = None → traits d !! k = None)
  ∧ (∀ k t0, default_traits !! k = Some t0 →
       ∃ t, traits d !! k = Some t
            ∧ t_type t = t_type t0 ∧ t_min t = t_min t0 ∧ t_max t = t_max t0
            ∧ t_name t = t_name t0 ∧ t_extra t = t_extra t0
            ∧ t_base t = (t_base (default t0 (traits a !! k))
                          + t_base (default t0 (traits b !! k))) / 2
            ∧ t_mod t = (t_mod (default t0 (traits a !! k))
                         + t_mod (default t0 (traits b !! k))) / 2).
Proof.
  intros Hd. apply make_dual_Ok_inv in Hd as (? & ? & ? & _ & _ & _ & _ & _ & _ & ->).
  cbn [traits]. split.
  - intros k Hk. rewrite merged_traits_lookup, Hk. reflexivity.
  - intros k t0 Hk. rewrite merged_traits_lookup, Hk.
    eexists. split; [reflexivity|].
    unfold merge_trait, get_or.
    destruct (traits a !! k), (traits b !! k); cbn; repeat split.
Qed.

Lemma X10_merge_over_defaults_witness :
  let a := mkArchetype (Some "Warrior") (delete "MV" (traits new_Warrior))
                       (Some "1d6+1") in
  ∃ t, merged_traits a new_Scout !! "MV" = Some t
       ∧ t_type t = trait ∧ t_name t = "Movement Points" ∧ t_base t = 6.
Proof.
  intros a.
  destruct (X10_merge_over_defaults (λ _, 0) a new_Scout
              (mkArchetype (Some "Warrior-Scout") (merged_traits a new_Scout)
                           (Some "1d6+1")) eq_refl) as [_ H].
  destruct (H "MV" (plain trait 6 "Movement Points") eq_refl)
    as (t & Ht & Hty & _ & _ & Hname & _ & Hbase & _).
  exists t. split; [exact Ht|]. split; [exact Hty|]. split; [exact Hname|].
  rewrite Hbase. reflexivity.
Defined.

(** ** Applying archetypes *)

Lemma capitalize_valid A : A ∈ VALID_ARCHETYPES → PyStr.capitalize A = A.
Proof. intros H. by apply valid_cases in H as [-> | [-> | ->]]. Qed.

Lemma valid_accepted A :
  A ∈ VALID_ARCHETYPES → negb (bool_decide (A ∈ VALID_ARCHETYPES)) = false.
Proof. intros H. by rewrite (bool_decide_eq_true_2 _ H). Qed.

(** A first application, or one with [reset]. *)
Lemma apply_single rm char A reset :
  A ∈ VALID_ARCHETYPES → reset = true ∨ db_archetype char = None →
  apply_archetype rm char A reset
  = Ok (mkCharacter (Some A) (traits (single A))).
Proof.
  intros HA Hcase. unfold apply_archetype.
  rewrite (capitalize_valid A HA), (valid_accepted A HA).
  destruct (load_valid rm A HA) as (Hl & Hn & _).
  assert (Hname : match db_archetype char with
                  | Some current =>
                      if negb reset then
                        if String.eqb current A
                        then Raise (ArchetypeException
                                      (String.append "Character is already a " A))
                        else Ok (PyStr.join_hyphen current A)
                      else Ok A
                  | None => Ok A
                  end = Ok A).
  { destruct Hcase as [-> | ->]; [|reflexivity].
    destruct (db_archetype char); reflexivity. }
  rewrite Hname. unfold rbind. rewrite Hl, Hn. reflexivity.
Qed.

(** A second application, of another valid archetype. *)
Lemma apply_second rm store A B n :
  A ∈ VALID_ARCHETYPES → B ∈ VALID_ARCHETYPES → A ≠ B →
  names !! ({[ A; B ]} : gset string) = Some n →
  apply_archetype rm (mkCharacter (Some A) store) B false
  = Ok (mkCharacter (Some n) (merged_traits (single A) (single B))).
Proof.
  intros HA HB Hne Hn. unfold apply_archetype.
  rewrite (capitalize_valid B HB), (valid_accepted B HB).
  cbn [db_archetype negb].
  apply String.eqb_neq in Hne as Heqb. rewrite Heqb.
  unfold rbind at 1. rewrite load_dual by assumption.
  destruct (load_valid rm A HA) as (_ & HnA & HhA & _).
  destruct (load_valid rm B HB) as (_ & HnB & HhB & _).
  rewrite (make_dual_ok rm _ _ A B n HnA HnB HhA HhB Hne Hn).
  reflexivity.
Qed.

(** X11: two different valid archetypes give the same character in either
    order of application: the same recorded name and the same trait
    table. *)
Theorem X11_apply_order (roll_max : option string → Z) (store0 : TraitTable)
    (A B : string) :
  A ∈ VALID_ARCHETYPES → B ∈ VALID_ARCHETYPES → A ≠ B →
  ∃ cA cB c,
    apply_archetype roll_max (mkCharacter None store0) A false = Ok cA
    ∧ apply_archetype roll_max (mkCharacter None store0) B false = Ok cB
    ∧ apply_archetype roll_max cA B false = Ok c
    ∧ apply_archetype roll_max cB A false = Ok c
    ∧ (∃ m, db_archetype c = Some m ∧ m ∈ DUAL_NAMES).
Proof.
  intros HA HB Hne.
  destruct (names_lookup A B HA HB Hne) as (n & Hn & Hn' & _).
  exists (mkCharacter (Some A) (traits (single A))).
  exists (mkCharacter (Some B) (traits (single B))).
  exists (mkCharacter (Some n) (merged_traits (single A) (single B))).
  split; [apply apply_single; [assumption|right; reflexivity]|].
  split; [apply apply_single; [assumption|right; reflexivity]|].
  split; [apply apply_second; assumption|].
  split.
  - rewrite (merged_traits_comm (single A) (single B)).
    apply apply_second; try assumption. congruence.
  - exists n. split; [reflexivity|].
    apply names_pair_inv in Hn as (_ & _ & Hd). exact Hd.
Qed.

Lemma X11_apply_order_witness :
  ∃ cA cB c,
    apply_archetype (λ _, 0) (mkCharacter None ∅) "Scout" false = Ok cA
    ∧ apply_archetype (λ _, 0) (mkCharacter None ∅) "Arcanist" false = Ok cB
    ∧ apply_archetype (λ _, 0) cA "Arcanist" false = Ok c
    ∧ apply_archetype (λ _, 0) cB "Scout" false = Ok c
    ∧ (∃ m, db_archetype c = Some m ∧ m ∈ DUAL_NAMES).
Proof.
  apply (X11_apply_order (λ _, 0) ∅ "Scout" "Arcanist").
  - in_list.
  - in_list.
  - discriminate.
Defined.

(** X12: with [reset], or on a character without archetype, the call
    installs the named archetype alone, whatever the character held before:
    the recorded name is the capitalised argument and the store is the table
    of that archetype. *)
Theorem X12_apply_reset (roll_max : option string → Z) (char : Character)
    (n : string) (reset : bool) :
  PyStr.capitalize n ∈ VALID_ARCHETYPES →
  reset = true ∨ db_archetype char = None →
  ∃ a, load_archetype roll_max (PyStr.capitalize n) = Ok a
       ∧ apply_archetype roll_max char n reset
         = Ok (mkCharacter (Some (PyStr.capitalize n)) (traits a)).
Proof.
  intros Hv Hcase. exists (single (PyStr.capitalize n)).
  split; [apply (load_valid roll_max _ Hv)|].
  rewrite <- (apply_single roll_max char (PyStr.capitalize n) reset Hv Hcase).
  unfold apply_archetype.
  rewrite (capitalize_valid _ Hv). reflexivity.
Qed.

Lemma X12_apply_reset_witness :
  ∃ a, load_archetype (λ _, 0) (PyStr.capitalize "sCOUT") = Ok a
       ∧ apply_archetype (λ _, 0)
           (mkCharacter (Some "Warrior-Arcanist") (traits new_Warrior))
           "sCOUT" true
         = Ok (mkCharacter (Some (PyStr.capitalize "sCOUT")) (traits a)).
Proof.
  apply (X12_apply_reset (λ _, 0)
           (mkCharacter (Some "Warrior-Arcanist") (traits new_Warrior))
           "sCOUT" true).
  - in_list.
  - left. reflexivity.
Defined.

Lemma lower_has_hyphen s : PyStr.has_hyphen (PyStr.lower s) = PyStr.has_hyphen s.
Proof.
  induction s as [|c s IH]; [reflexivity|].
  destruct (title_char_hyphen c) as (_ & _ & Hlow).
  cbn [PyStr.lower PyStr.has_hyphen]. by rewrite Hlow, IH.
Qed.

Lemma capitalize_has_hyphen s :
  PyStr.has_hyphen (PyStr.capitalize s) = PyStr.has_hyphen s.
Proof.
  destruct s as [|c s]; [reflexivity|].
  destruct (title_char_hyphen c) as (_ & Hup & _).
  cbn [PyStr.capitalize PyStr.has_hyphen]. by rewrite Hup, lower_has_hyphen.
Qed.

Lemma valid_no_hyphen A : A ∈ VALID_ARCHETYPES → PyStr.has_hyphen A = false.
Proof. intros H. by apply valid_cases in H as [-> | [-> | ->]]. Qed.

(** X13: [apply_archetype] takes single names only: a name with a hyphen is
    refused as invalid, for every character and with or without [reset]; a
    dual archetype comes from two calls. *)
Theorem X13_apply_refuses_hyphen (roll_max : option string → Z)
    (char : Character) (n : string) (reset : bool) :
  PyStr.has_hyphen n = true →
  apply_archetype roll_max char n reset
  = Raise (ArchetypeException "Invalid archetype.").
Proof.
  intros Hn. unfold apply_archetype.
  destruct (bool_decide (PyStr.capitalize n ∈ VALID_ARCHETYPES)) eqn:Hv;
    [|reflexivity].
  apply bool_decide_eq_true_1, valid_no_hyphen in Hv.
  rewrite capitalize_has_hyphen in Hv. congruence.
Qed.

Lemma X13_apply_refuses_hyphen_witness :
  apply_archetype (λ _, 0) (mkCharacter None ∅) "warrior-scout" false
  = Raise (ArchetypeException "Invalid archetype.").
Proof.
  apply (X13_apply_refuses_hyphen (λ _, 0) (mkCharacter None ∅) "warrior-scout").
  reflexivity.
Defined.

(** X14: a character that holds a dual archetype cannot take a third
    without [reset]: every valid name is refused, with the triple-archetype
    error or with the self-dual error. *)
Theorem X14_apply_third (roll_max : option string → Z) (store : TraitTable)
    (cur n : string) :
  cur ∈ DUAL_NAMES → PyStr.capitalize n ∈ VALID_ARCHETYPES →
  ∃ msg,
    apply_archetype roll_max (mkCharacter (Some cur) store) n false
    = Raise (ArchetypeException msg)
    ∧ msg ∈ ["Cannot create Triple-Archetype";
             "Cannot create dual of the same Archetype"].
Proof.
  intros Hcur Hv. unfold apply_archetype.
  rewrite (valid_accepted _ Hv). cbn [db_archetype negb].
  remember (PyStr.capitalize n) as n' eqn:En. clear En.
  unfold DUAL_NAMES in Hcur.
  repeat (apply elem_of_cons in Hcur as [->|Hcur];
          [apply valid_cases in Hv as [-> | [-> | ->]];
           first [ exists "Cannot create Triple-Archetype";
                   split; [vm_compute; reflexivity|in_list]
                 | exists "Cannot create dual of the same Archetype";
                   split; [vm_compute; reflexivity|in_list] ]|]).
  by apply elem_of_nil in Hcur.
Qed.

Lemma X14_apply_third_witness :
  ∃ msg,
    apply_archetype (λ _, 0)
      (mkCharacter (Some "Warrior-Scout") (merged_traits new_Warrior new_Scout))
      "arcanist" false
    = Raise (ArchetypeException msg)
    ∧ msg ∈ ["Cannot create Triple-Archetype";
             "Cannot create dual of the same Archetype"].
Proof.
  apply (X14_apply_third (λ _, 0) (merged_traits new_Warrior new_Scout)
           "Warrior-Scout" "arcanist").
  - in_list.
  - in_list.
Defined.

Lemma join_has_hyphen a b : PyStr.has_hyphen (PyStr.join_hyphen a b) = true.
Proof.
  unfold PyStr.join_hyphen. induction a as [|c a IH].
  - reflexivity.
  - change (String.append (String c a) (String PyStr.hyphen b))
      with (String c (String.append a (String PyStr.hyphen b))).
    cbn [PyStr.has_hyphen].
    destruct (Ascii.eqb c PyStr.hyphen); [reflexivity|exact IH].
Qed.

(** X15: whenever [apply_archetype] succeeds, the name it records is a valid
    single name or one of the three dual names, the store it installs has
    exactly the traits of [ALL_TRAITS], and loading the recorded name gives
    that very table again. *)
Theorem X15_applied_character (roll_max : option string → Z) (char c' : Character)
    (n : string) (reset : bool) :
  apply_archetype roll_max char n reset = Ok c' →
  ∃ m d,
    db_archetype c' = Some m
    ∧ (m ∈ VALID_ARCHETYPES ∨ m ∈ DUAL_NAMES)
    ∧ dom (db_traits c') = list_to_set ALL_TRAITS
    ∧ load_archetype roll_max m = Ok d
    ∧ traits d = db_traits c' ∧ name d = Some m.
Proof.
  unfold apply_archetype.
  destruct (bool_decide (PyStr.capitalize n ∈ VALID_ARCHETYPES)) eqn:Hv;
    [|discriminate].
  apply bool_decide_eq_true_1 in Hv. cbn [negb].
  set (A := PyStr.capitalize n) in *.
  assert (Hsingle : ∀ c, (archetype <- load_archetype roll_max A ;;
                          Ok (mkCharacter (name archetype) (traits archetype)))%result
                         = Ok c →
            ∃ m d, db_archetype c = Some m
                   ∧ (m ∈ VALID_ARCHETYPES ∨ m ∈ DUAL_NAMES)
                   ∧ dom (db_traits c) = list_to_set ALL_TRAITS
                   ∧ load_archetype roll_max m = Ok d
                   ∧ traits d = db_traits c ∧ name d = Some m).
  { intros c Hc. destruct (load_valid roll_max A Hv) as (Hl & Hn & _).
    unfold rbind in Hc. rewrite Hl, Hn in Hc. injection Hc as <-.
    exists A, (single A). cbn [db_archetype db_traits].
    split; [reflexivity|]. split; [left; exact Hv|].
    split; [exact (loaded_dom roll_max A _ Hl)|].
    split; [exact Hl|]. split; [reflexivity|exact Hn]. }
  destruct (db_archetype char) as [cur|]; [|apply Hsingle].
  destruct reset; cbn [negb]; [apply Hsingle|].
  destruct (String.eqb cur A); [intros Hc; discriminate Hc|].
  unfold rbind.
  destruct (load_archetype roll_max (PyStr.join_hyphen cur A)) as [arch|] eqn:Hl;
    [|intros Hc; discriminate Hc].
  intros [= <-]. cbn [db_archetype db_traits].
  pose proof (loaded_dom roll_max _ _ Hl) as Hdom.
  apply load_archetype_Ok_inv in Hl
    as [(Hh & _)|[(Hh & _)|(_ & _ & X & Y & m & HX & HY & Hne & Hm & ->)]].
  - rewrite join_has_hyphen in Hh. discriminate.
  - rewrite join_has_hyphen in Hh. discriminate.
  - cbn [name traits] in *.
    destruct (dual_reload roll_max X Y m HX HY Hne Hm) as (d' & Hd' & Ht & Hn').
    exists m, d'. split; [reflexivity|].
    split; [right; by apply names_pair_inv in Hm as (_ & _ & ?)|].
    split; [exact Hdom|]. split; [exact Hd'|]. split; [exact Ht|exact Hn'].
Qed.

Lemma X15_applied_character_witness :
  ∃ m d,
    Some "Arcanist-Scout" = Some m
    ∧ (m ∈ VALID_ARCHETYPES ∨ m ∈ DUAL_NAMES)
    ∧ dom (merged_traits new_Scout new_Arcanist) = list_to_set ALL_TRAITS
    ∧ load_archetype (λ _, 0) m = Ok d
    ∧ traits d = merged_traits new_Scout new_Arcanist ∧ name d = Some m.
Proof.
  apply (X15_applied_character (λ _, 0) (mkCharacter (Some "Scout") ∅)
           (mkCharacter (Some "Arcanist-Scout")
                        (merged_traits new_Scout new_Arcanist))
           "arcanist" false).
  vm_compute. reflexivity.
Defined.

(** ** The two budget functions together *)

(** X16: [validate_primary_traits] answers by the sign of what
    [get_remaining_allocation] returns on the same store: "Too many" when it
    is negative, "Not enough" when it is positive, valid when it is zero; and
    when one raises, the other raises the same exception. *)
Theorem X16_validate_by_remaining (s : TraitTable) :
  validate_primary_traits s
  = match get_remaining_allocation s with
    | (Ok r, s') =>
        (Ok (if r <? 0 then (false, Some "Too many trait points allocated.")
             else if r >? 0 then
               (false, Some "Not enough trait points allocated.")
             else (true, None)), s')
    | (Raise e, s') => (Raise e, s')
    end.
Proof.
  unfold validate_primary_traits, get_remaining_allocation, bind.
  destruct (sum_bases 0 PRIMARY_TRAITS s) as [[total|e] s']; [|reflexivity].
  unfold ret, TOTAL_PRIMARY_POINTS.
  destruct (Z.gtb_spec total 30), (Z.ltb_spec total 30),
    (Z.ltb_spec (30 - total) 0), (Z.gtb_spec (30 - total) 0);
    first [reflexivity | lia].
Qed.




(** ** When the derivation raises *)

Ltac keys_present :=
  let k := fresh "k" in
  let Hk := fresh "Hk" in
  intros k Hk; unfold DERIVATION_KEYS in Hk;
  repeat (apply elem_of_cons in Hk as [->|Hk]; [eauto|]);
  by apply elem_of_nil in Hk.

Ltac run_fails :=
  right; eexists _, _; split; [repeat run_step; reflexivity|];
  split; [in_list|assumption].

(** A run either finds every trait it needs and returns, or raises
    [KeyError] for one that the store lacks. *)
Lemma calculate_secondary_traits_outcome s :
  (∃ s', calculate_secondary_traits s = (Ok tt, s')
         ∧ ∀ k, k ∈ DERIVATION_KEYS → is_Some (s !! k))
  ∨ (∃ k s', calculate_secondary_traits s = (Raise (KeyError k), s')
             ∧ k ∈ DERIVATION_KEYS ∧ s !! k = None).
Proof.
  unfold calculate_secondary_traits.
  destruct (s !! "VIT") as [vit|] eqn:Hvit; [|run_fails].
  destruct (s !! "HP") as [hp|] eqn:Hhp; [|run_fails].
  destruct (s !! "SP") as [sp|] eqn:Hsp; [|run_fails].
  destruct (s !! "FORT") as [fort|] eqn:Hfort; [|run_fails].
  destruct (s !! "DEX") as [dex|] eqn:Hdex; [|run_fails].
  destruct (s !! "REFL") as [refl|] eqn:Hrefl; [|run_fails].
  destruct (s !! "INT") as [int|] eqn:Hint; [|run_fails].
  destruct (s !! "WILL") as [will|] eqn:Hwill; [|run_fails].
  destruct (s !! "STR") as [str|] eqn:Hstr; [|run_fails].
  destruct (s !! "ATKM") as [atkm|] eqn:Hatkm; [|run_fails].
  destruct (s !! "PER") as [per|] eqn:Hper; [|run_fails].
  destruct (s !! "ATKR") as [atkr|] eqn:Hatkr; [|run_fails].
  destruct (s !! "ATKU") as [atku|] eqn:Hatku; [|run_fails].
  destruct (s !! "DEF") as [def|] eqn:Hdef; [|run_fails].
  destruct (s !! "MAG") as [mag|] eqn:Hmag; [|run_fails].
  destruct (s !! "BM") as [bm|] eqn:Hbm; [|run_fails].
  destruct (s !! "WM") as [wm|] eqn:Hwm; [|run_fails].
  destruct (s !! "ENC") as [enc|] eqn:Henc; [|run_fails].
  left. eexists. split; [repeat run_step; reflexivity|keys_present].
Qed.


Lemma frame_keys s s' k : frame s s' → (is_Some (s' !! k) ↔ is_Some (s !! k)).
Proof.
  intros Hf. specialize (Hf k).
  destruct (s !! k), (s' !! k); try contradiction; split; eauto;
    intros [? ?]; discriminate.
Qed.

(** X19: the derivation never raises on the store of a character that
    [apply_archetype] has just set up: it returns, and the store still holds
    exactly the traits of [ALL_TRAITS]. *)
Theorem X19_derive_after_apply (roll_max : option string → Z)
    (char c' : Character) (n : string) (reset : bool) :
  apply_archetype roll_max char n reset = Ok c' →
  ∃ s', calculate_secondary_traits (db_traits c') = (Ok tt, s')
        ∧ ∀ k, is_Some (s' !! k) ↔ k ∈ ALL_TRAITS.
Proof.
  intros Happly.
  assert (Hdom : dom (db_traits c') = list_to_set ALL_TRAITS).
  { revert Happly. unfold apply_archetype.
    destruct (negb _); [intros H; discriminate H|].
    unfold rbind.
    destruct (match db_archetype char with Some _ => _ | None => _ end)
      as [n'|]; [|intros H; discriminate H].
    destruct (load_archetype roll_max n') as [arch|] eqn:Hl;
      [|intros H; discriminate H].
    intros [= <-]. cbn [db_traits]. exact (loaded_dom roll_max n' arch Hl). }
  assert (Hkey : ∀ k, is_Some (db_traits c' !! k) ↔ k ∈ ALL_TRAITS).
  { intros k. rewrite <- elem_of_dom, Hdom. apply elem_of_list_to_set. }
  destruct (calculate_secondary_traits_outcome (db_traits c'))
    as [(s' & Hrun & _)|(k & s' & _ & Hk & Hnone)].
  - exists s'. split; [exact Hrun|]. intros k.
    rewrite <- Hkey.
    pose proof (calculate_secondary_traits_preserves (db_traits c') (db_traits c')
                  (frame_refl _)) as Hf.
    rewrite Hrun in Hf. cbn [snd] in Hf. by apply frame_keys.
  - exfalso. assert (Hall : k ∈ ALL_TRAITS).
    { unfold DERIVATION_KEYS in Hk.
      repeat (apply elem_of_cons in Hk as [->|Hk]; [in_list|]).
      by apply elem_of_nil in Hk. }
    apply Hkey in Hall as [t Ht]. congruence.
Qed.

Lemma X19_derive_after_apply_witness :
  ∃ s', calculate_secondary_traits (traits new_Arcanist) = (Ok tt, s')
        ∧ ∀ k, is_Some (s' !! k) ↔ k ∈ ALL_TRAITS.
Proof.
  apply (X19_derive_after_apply (λ _, 0) (mkCharacter None ∅)
           (mkCharacter (Some "Arcanist") (traits new_Arcanist)) "ARCANIST" false).
  vm_compute. reflexivity.
Defined.

(** X20: a run that returns leaves on STR the three factors 10, 20 and 40
    under [carry_factor], [lift_factor] and [push_factor], whatever STR
    carried under these names before, keeps every other attribute of STR, and
    sets the maximum of ENC to the lift factor times the actual STR. *)
Theorem X20_strength_factors (s : TraitTable) :
  fst (calculate_secondary_traits s) = Ok tt →
  ∃ str str' enc',
    s !! "STR" = Some str
    ∧ snd (calculate_secondary_traits s) !! "STR" = Some str'
    ∧ snd (calculate_secondary_traits s) !! "ENC" = Some enc'
    ∧ t_extra str' !! "carry_factor" = Some (ENum 10)
    ∧ t_extra str' !! "lift_factor" = Some (ENum 20)
    ∧ t_extra str' !! "push_factor" = Some (ENum 40)
    ∧ (∀ a, a ∉ FACTORS → t_extra str' !! a = t_extra str !! a)
    ∧ actual str' = actual str
    ∧ t_max enc' = Some (20 * actual str').
Proof.
  intros Hok.
  destruct (calculate_secondary_traits_outcome s)
    as [(s' & _ & Hkeys)|(k & s' & Hrun & _)];
    [|rewrite Hrun in Hok; discriminate Hok].
  destruct (Hkeys "VIT" ltac:(in_list)) as [vit Hvit].
  destruct (Hkeys "HP" ltac:(in_list)) as [hp Hhp].
  destruct (Hkeys "SP" ltac:(in_list)) as [sp Hsp].
  destruct (Hkeys "FORT" ltac:(in_list)) as [fort Hfort].
  destruct (Hkeys "DEX" ltac:(in_list)) as [dex Hdex].
  destruct (Hkeys "REFL" ltac:(in_list)) as [refl Hrefl].
  destruct (Hkeys "INT" ltac:(in_list)) as [int Hint].
  destruct (Hkeys "WILL" ltac:(in_list)) as [will Hwill].
  destruct (Hkeys "STR" ltac:(in_list)) as [str Hstr].
  destruct (Hkeys "ATKM" ltac:(in_list)) as [atkm Hatkm].
  destruct (Hkeys "PER" ltac:(in_list)) as [per Hper].
  destruct (Hkeys "ATKR" ltac:(in_list)) as [atkr Hatkr].
  destruct (Hkeys "ATKU" ltac:(in_list)) as [atku Hatku].
  destruct (Hkeys "DEF" ltac:(in_list)) as [def Hdef].
  destruct (Hkeys "MAG" ltac:(in_list)) as [mag Hmag].
  destruct (Hkeys "BM" ltac:(in_list)) as [bm Hbm].
  destruct (Hkeys "WM" ltac:(in_list)) as [wm Hwm].
  destruct (Hkeys "ENC" ltac:(in_list)) as [enc Henc].
  rewrite (calculate_secondary_traits_run s vit hp sp fort dex refl int will
             str atkm per atkr atku def mag bm wm enc) by assumption.
  cbn [snd].
  exists str, (with_factors str), (set_max (20 * actual str) enc).
  split; [exact Hstr|].
  split; [read_store; reflexivity|].
  split; [read_store; reflexivity|].
  split; [find_attr|]. split; [find_attr|]. split; [find_attr|].
  split.
  - intros a Ha. unfold FACTORS in Ha.
    apply not_elem_of_cons in Ha as [H1 Ha].
    apply not_elem_of_cons in Ha as [H2 Ha].
    apply not_elem_of_cons in Ha as [H3 _].
    unfold with_factors, set_extra. cbn [t_extra].
    rewrite !lookup_insert_ne by congruence. reflexivity.
  - split; reflexivity.
Qed.

Lemma X20_strength_factors_witness :
  ∃ str str' enc',
    sheet_store !! "STR" = Some str
    ∧ snd (calculate_secondary_traits sheet_store) !! "STR" = Some str'
    ∧ snd (calculate_secondary_traits sheet_store) !! "ENC" = Some enc'
    ∧ t_extra str' !! "carry_factor" = Some (ENum 10)
    ∧ t_extra str' !! "lift_factor" = Some (ENum 20)
    ∧ t_extra str' !! "push_factor" = Some (ENum 40)
    ∧ (∀ a, a ∉ FACTORS → t_extra str' !! a = t_extra str !! a)
    ∧ actual str' = actual str
    ∧ t_max enc' = Some (20 * actual str').
Proof. apply (X20_strength_factors sheet_store). vm_compute. reflexivity. Defined.
